(** * Shared metrics publisher of the Outline server (shadowbox)

    A shallow embedding of [src/shadowbox/server/shared_metrics.ts]:
    the usage filter of the hourly report, the opt-in gate, the window
    cursor of [OutlineSharedMetricsPublisher], and the REST transport
    [RestMetricsCollectorClient.postMetrics].

    Conventions of the embedding.
    - A JavaScript string is the list of its UTF-16 code units.
    - A JavaScript number that the code only ever treats as an integer
      (timestamps, byte counts, status codes, lengths) is a [Z].
    - An [async] function is a computation in the monad [M]: it reads the
      answers of its collaborators (clock, usage source, collector) from a
      [World], threads the publisher's fields, appends every call it makes
      on a collaborator to a trace, and either returns or throws.  A timer
      callback runs to completion before the next event is taken; the
      part of [reportServerUsageMetrics] that reads the clock, builds the
      report and moves the cursor has no [await] in it, so it is one step
      in any interleaving.
    - Where it matters what happens while a callback waits at an
      [await], the callbacks are cut into their segments ([System],
      [act], [perform]): other callbacks and the methods of the
      publisher run between the segments.
    - The usage source is the interface [UsageMetrics]; its Prometheus
      implementation lies behind [getUsage] and [reset]. *)

From Stdlib Require Import ZArith List String Ascii DecimalString Lia.
From stdpp Require Import base decidable countable list gmap.

Import ListNotations.
Local Open Scope Z_scope.

(** ** JavaScript strings and values *)

Module Js.

(** A string is its sequence of UTF-16 code units. *)
Definition jsstring : Type := list N.

(** An ASCII literal of the source, as a JavaScript string. *)
Definition lit (s : string) : jsstring :=
  List.map N_of_ascii (list_ascii_of_string s).

(** [String(n)] of an integral number below 1e21 in magnitude: its decimal
    digits, with a leading minus sign when negative. *)
Definition of_number (n : Z) : jsstring :=
  lit (NilZero.string_of_int (Z.to_int n)).

(** The values a possibly missing boolean field can hold. *)
Inductive value : Type :=
| Undefined
| Bool (b : bool).

(** ToBoolean. *)
Definition truthy (v : value) : bool :=
  match v with
  | Undefined => false
  | Bool b => b
  end.

(** [a || b]: the left operand when it is truthy, else the right one. *)
Definition or (a b : value) : value :=
  if truthy a then a else b.

(** [a || b] on strings: the empty string is falsy; [None] is [undefined]. *)
Definition or_string (a : option jsstring) (b : jsstring) : jsstring :=
  match a with
  | Some (c :: s) => c :: s
  | Some [] | None => b
  end.

(** What a thrown value or a rejected promise carries:
    [new Error(message)]. *)
Inductive error : Type :=
| Error (message : jsstring).

(** [`${err}`] for an [Error] object. *)
Definition error_to_string (e : error) : jsstring :=
  match e with
  | Error m => lit "Error: " ++ m
  end.

End Js.

Import Js.

#[global] Arguments lit : simpl never.
#[global] Arguments of_number : simpl never.
#[global] Arguments error_to_string : simpl never.

(** ** JSON text and UTF-8 bytes *)

Module Json.

Definition is_high_surrogate (c : N) : bool := ((55296 <=? c) && (c <=? 56319))%N.
Definition is_low_surrogate (c : N) : bool := ((56320 <=? c) && (c <=? 57343))%N.

(** A lowercase hexadecimal digit. *)
Definition hex_digit (d : N) : N := (if d <? 10 then 48 + d else 87 + d)%N.

(** The six characters [\uXXXX] of a code unit. *)
Definition unicode_escape (c : N) : jsstring :=
  [92; 117; hex_digit (c / 4096 mod 16); hex_digit (c / 256 mod 16);
   hex_digit (c / 16 mod 16); hex_digit (c mod 16)]%N.

(** QuoteJSONString on one code unit that is not a surrogate: the short
    escapes, the quote and the backslash, [\u00XX] for the other control
    characters, and every other code unit as it is. *)
Definition quote_unit (c : N) : jsstring :=
  (if c =? 8 then [92; 98]
   else if c =? 9 then [92; 116]
   else if c =? 10 then [92; 110]
   else if c =? 12 then [92; 102]
   else if c =? 13 then [92; 114]
   else if c =? 34 then [92; 34]
   else if c =? 92 then [92; 92]
   else if c <? 32 then unicode_escape c
   else [c])%N.

(** QuoteJSONString without the enclosing quotes: a surrogate pair is
    kept, a lone surrogate is escaped. *)
Fixpoint quote_units (s : jsstring) : jsstring :=
  match s with
  | [] => []
  | c :: rest =>
      if is_high_surrogate c then
        match rest with
        | d :: rest' =>
            if is_low_surrogate d then c :: d :: quote_units rest'
            else unicode_escape c ++ quote_units rest
        | [] => unicode_escape c
        end
      else if is_low_surrogate c then unicode_escape c ++ quote_units rest
      else quote_unit c ++ quote_units rest
  end.

Definition string (s : jsstring) : jsstring := [34%N] ++ quote_units s ++ [34%N].
Definition number (n : Z) : jsstring := of_number n.
Definition boolean (b : bool) : jsstring := lit (if b then "true" else "false").

Fixpoint join (items : list jsstring) : jsstring :=
  match items with
  | [] => []
  | [x] => x
  | x :: rest => x ++ lit "," ++ join rest
  end.

Definition array (items : list jsstring) : jsstring :=
  lit "[" ++ join items ++ lit "]".

(** An object whose properties all have a value, in insertion order. *)
Definition object (properties : list (String.string * jsstring)) : jsstring :=
  lit "{"
  ++ join (List.map (λ kv, string (lit (fst kv)) ++ lit ":" ++ snd kv) properties)
  ++ lit "}".

(** The UTF-8 bytes of the code point [cp]. *)
Definition utf8_code_point (cp : N) : list N :=
  (if cp <? 128 then [cp]
   else if cp <? 2048 then [192 + cp / 64; 128 + cp mod 64]
   else if cp <? 65536 then
     [224 + cp / 4096; 128 + cp / 64 mod 64; 128 + cp mod 64]
   else
     [240 + cp / 262144; 128 + cp / 4096 mod 64; 128 + cp / 64 mod 64;
      128 + cp mod 64])%N.

(** The bytes that [Buffer.from(s, 'utf8')] holds, which is what
    [req.write(s)] sends: a surrogate pair is one code point of four
    bytes, a lone surrogate becomes U+FFFD. *)
Fixpoint utf8_encode (s : jsstring) : list N :=
  match s with
  | [] => []
  | c :: rest =>
      if is_high_surrogate c then
        match rest with
        | d :: rest' =>
            if is_low_surrogate d then
              utf8_code_point (65536 + (c - 55296) * 1024 + (d - 56320))%N
                ++ utf8_encode rest'
            else utf8_code_point 65533%N ++ utf8_encode rest
        | [] => utf8_code_point 65533%N
        end
      else if is_low_surrogate c then utf8_code_point 65533%N ++ utf8_encode rest
      else utf8_code_point c ++ utf8_encode rest
  end.

(** [Buffer.byteLength(s)]. *)
Definition byteLength (s : jsstring) : Z := Z.of_nat (length (utf8_encode s)).

End Json.

(** ** Data model *)

Definition MS_PER_HOUR : Z := 60 * 60 * 1000.
Definition MS_PER_DAY : Z := 24 * MS_PER_HOUR.

(** [new Set(['CU', 'KP', 'SY'])]. *)
Definition SANCTIONED_COUNTRIES : gset jsstring :=
  {[ lit "CU"; lit "KP"; lit "SY" ]}.

Record KeyUsage : Type := mkKeyUsage {
  accessKeyId : jsstring;
  countries : list jsstring;
  inboundBytes : Z
}.

Record HourlyUserMetricsReportJson : Type := mkUserReport {
  userId : jsstring;
  bytesTransferred : Z;
  userCountries : list jsstring
}.

Record HourlyServerMetricsReportJson : Type := mkServerReport {
  serverId : jsstring;
  startUtcMs : Z;
  endUtcMs : Z;
  userReports : list HourlyUserMetricsReportJson
}.

Record DailyDataLimitMetricsReportJson : Type := mkDataLimitReport {
  enabled : bool
}.

Record DailyFeatureMetricsReportJson : Type := mkFeatureReport {
  featureServerId : jsstring;
  serverVersion : jsstring;
  timestampUtcMs : Z;
  dataLimit : DailyDataLimitMetricsReportJson
}.

(** The fields of [ServerConfigJson] that this file reads or writes.  A
    missing [metricsEnabled] is [Undefined]; [accessKeyDataLimit] is an
    optional object [{bytes}]. *)
Record ServerConfigJson : Type := mkServerConfig {
  configServerId : jsstring;
  metricsEnabled : value;
  accessKeyDataLimit : option Z
}.

Definition set_metricsEnabled (v : value) (c : ServerConfigJson)
  : ServerConfigJson :=
  {| configServerId := configServerId c;
     metricsEnabled := v;
     accessKeyDataLimit := accessKeyDataLimit c |}.

(** ** The sanctioned-country test *)

(** [SANCTIONED_COUNTRIES.has(country)]. *)
Definition is_sanctioned (country : jsstring) : bool :=
  bool_decide (country ∈ SANCTIONED_COUNTRIES).

(** The loop of [hasSanctionedCountry]: return [true] at the first
    sanctioned country, [false] when the list is exhausted. *)
Fixpoint hasSanctionedCountry (countries : list jsstring) : bool :=
  match countries with
  | [] => false
  | country :: rest =>
      if is_sanctioned country then true else hasSanctionedCountry rest
  end.

(** ** Collaborators, state and the monad of asynchronous code *)

(** A call made on a collaborator, with its arguments.  [ReportBuilt] is
    not a call: it records the value of the local constant [report] of
    [reportServerUsageMetrics] at the point where it is built, so that
    reports that are never delivered can be spoken about too. *)
Inductive Call : Type :=
| ClockNow
| ClockSetInterval (intervalMs : Z)
| GetUsage
| Reset
| CollectServerUsageMetrics (report : HourlyServerMetricsReportJson)
| CollectFeatureMetrics (report : DailyFeatureMetricsReportJson)
| ConfigWrite (data : ServerConfigJson)
| ConsoleError (message : jsstring)
| ReportBuilt (report : HourlyServerMetricsReportJson).

(** What the collaborators answer during one timer callback.  Each is
    called at most once per callback, so one answer each is enough:
    [clock.now()], the promise of [usageMetrics.getUsage()], and the
    promises of the two methods of the [MetricsCollectorClient]. *)
Record World : Type := mkWorld {
  now : Z;
  getUsage : error + list KeyUsage;
  collectServerUsageMetrics : error + unit;
  collectFeatureMetrics : error + unit
}.

(** The publisher's private field, the data object behind
    [serverConfig.data()] (one shared object, mutated in place), and the
    calls made so far, oldest first. *)
Record State : Type := mkState {
  reportStartTimestampMs : Z;
  serverConfig : ServerConfigJson;
  trace : list Call
}.

Definition M (A : Type) : Type := World → State → (error + A) * State.

#[global] Instance M_ret : MRet M := λ A (a : A) _ st, (inr a, st).

#[global] Instance M_bind : MBind M := λ A B (f : A → M B) (m : M A) w st,
  match m w st with
  | (inr a, st') => f a w st'
  | (inl e, st') => (inl e, st')
  end.

(** [try { body } catch (err) { handler }]. *)
Definition try_catch {A : Type} (body : M A) (handler : error → M A) : M A :=
  λ w st,
    match body w st with
    | (inr a, st') => (inr a, st')
    | (inl e, st') => handler e w st'
    end.

Definition log (c : Call) (st : State) : State :=
  {| reportStartTimestampMs := reportStartTimestampMs st;
     serverConfig := serverConfig st;
     trace := trace st ++ [c] |}.

(** Call a collaborator that answers with a value. *)
Definition call {A : Type} (c : Call) (answer : World → A) : M A :=
  λ w st, (inr (answer w), log c st).

(** Await a collaborator's promise: its value, or its rejection thrown. *)
Definition await {A : Type} (c : Call) (answer : World → error + A) : M A :=
  λ w st, (answer w, log c st).

Definition clock_now : M Z := call ClockNow now.
Definition usageMetrics_getUsage : M (list KeyUsage) := await GetUsage getUsage.
Definition usageMetrics_reset : M unit := call Reset (λ _, tt).
Definition console_error (message : jsstring) : M unit :=
  call (ConsoleError message) (λ _, tt).
Definition metricsCollector_collectServerUsageMetrics
    (report : HourlyServerMetricsReportJson) : M unit :=
  await (CollectServerUsageMetrics report) collectServerUsageMetrics.
Definition metricsCollector_collectFeatureMetrics
    (report : DailyFeatureMetricsReportJson) : M unit :=
  await (CollectFeatureMetrics report) collectFeatureMetrics.

(** [this.serverConfig.data()]. *)
Definition serverConfig_data : M ServerConfigJson :=
  λ _ st, (inr (serverConfig st), st).

Definition get_reportStartTimestampMs : M Z :=
  λ _ st, (inr (reportStartTimestampMs st), st).

Definition set_reportStartTimestampMs (t : Z) : M unit :=
  λ _ st, (inr tt,
           {| reportStartTimestampMs := t;
              serverConfig := serverConfig st;
              trace := trace st |}).

(** The final state of a computation. *)
Definition exec {A : Type} (m : M A) (w : World) (st : State) : State :=
  snd (m w st).

(** ** OutlineSharedMetricsPublisher *)

Section Publisher.

(** The injected mapping from access key ids to metrics ids ([None] when
    it answers [undefined]) and the [version] of [package.json]. *)
Variable toMetricsId : jsstring → option jsstring.
Variable version : jsstring.

(** One iteration of the loop over [usageMetrics]: skip on zero bytes,
    skip on a sanctioned country, else push a user report. *)
Definition push_userReport (userReports : list HourlyUserMetricsReportJson)
    (keyUsage : KeyUsage) : list HourlyUserMetricsReportJson :=
  if inboundBytes keyUsage =? 0 then userReports
  else if hasSanctionedCountry (countries keyUsage) then userReports
  else userReports ++
       [ {| userId := or_string (toMetricsId (accessKeyId keyUsage)) [];
            bytesTransferred := inboundBytes keyUsage;
            userCountries := countries keyUsage |} ].

Definition build_userReports (usageMetrics : list KeyUsage)
  : list HourlyUserMetricsReportJson :=
  fold_left push_userReport usageMetrics [].

(** The object literal [report]. *)
Definition build_report (data : ServerConfigJson) (start reportEndTimestampMs : Z)
    (usageMetrics : list KeyUsage) : HourlyServerMetricsReportJson :=
  {| serverId := configServerId data;
     startUtcMs := start;
     endUtcMs := reportEndTimestampMs;
     userReports := build_userReports usageMetrics |}.

Definition isSharingEnabled : M value :=
  data ← serverConfig_data;
  mret (Js.or (metricsEnabled data) (Bool false)).

Definition reportServerUsageMetrics (usageMetrics : list KeyUsage) : M unit :=
  reportEndTimestampMs ← clock_now;
  data ← serverConfig_data;
  start ← get_reportStartTimestampMs;
  let report := build_report data start reportEndTimestampMs usageMetrics in
  call (ReportBuilt report) (λ _, tt);;
  set_reportStartTimestampMs reportEndTimestampMs;;
  if (length (userReports report) =? 0)%nat then mret tt
  else metricsCollector_collectServerUsageMetrics report.

Definition reportFeatureMetrics : M unit :=
  data ← serverConfig_data;
  timestamp ← clock_now;
  let featureMetricsReport :=
    {| featureServerId := configServerId data;
       serverVersion := version;
       timestampUtcMs := timestamp;
       dataLimit :=
         {| enabled := match accessKeyDataLimit data with
                       | Some _ => true
                       | None => false
                       end |} |} in
  metricsCollector_collectFeatureMetrics featureMetricsReport.

(** The callback registered with [MS_PER_HOUR]. *)
Definition hourly_callback : M unit :=
  sharing ← isSharingEnabled;
  if negb (truthy sharing) then mret tt
  else
    try_catch
      (usage ← usageMetrics_getUsage;
       reportServerUsageMetrics usage;;
       usageMetrics_reset)
      (λ err,
         console_error (lit "Failed to report server usage metrics: "
                          ++ error_to_string err)).

(** The callback registered with [MS_PER_DAY]. *)
Definition daily_callback : M unit :=
  sharing ← isSharingEnabled;
  if negb (truthy sharing) then mret tt
  else
    try_catch reportFeatureMetrics
      (λ err,
         console_error (lit "Failed to report feature metrics: "
                          ++ error_to_string err)).

(** The constructor: read the clock for the first window start, then
    register the two callbacks. *)
Definition construct (clockNow : Z) (config : ServerConfigJson) : State :=
  {| reportStartTimestampMs := clockNow;
     serverConfig := config;
     trace := [ClockNow; ClockSetInterval MS_PER_HOUR;
               ClockSetInterval MS_PER_DAY] |}.

(** [data().metricsEnabled = flag; write()]. *)
Definition write_metricsEnabled (flag : bool) (st : State) : State :=
  let data := set_metricsEnabled (Bool flag) (serverConfig st) in
  {| reportStartTimestampMs := reportStartTimestampMs st;
     serverConfig := data;
     trace := trace st ++ [ConfigWrite data] |}.

Definition startSharing : State → State := write_metricsEnabled true.
Definition stopSharing : State → State := write_metricsEnabled false.

(** What can happen to a publisher after construction: a method call by
    the management API, or one of the two timers firing (with what the
    collaborators answer during that callback). *)
Inductive Event : Type :=
| StartSharing
| StopSharing
| HourlyTick (w : World)
| DailyTick (w : World).

Definition step (st : State) (ev : Event) : State :=
  match ev with
  | StartSharing => startSharing st
  | StopSharing => stopSharing st
  | HourlyTick w => exec hourly_callback w st
  | DailyTick w => exec daily_callback w st
  end.

Definition run (st : State) (events : list Event) : State :=
  fold_left step events st.

End Publisher.

(** ** JSON.stringify of the two reports *)

(** Properties appear in the order in which the object literals of the
    source list them; the country list is the property [countries]. *)
Definition stringify_userReport (r : HourlyUserMetricsReportJson) : jsstring :=
  Json.object
    [("userId"%string, Json.string (userId r));
     ("bytesTransferred"%string, Json.number (bytesTransferred r));
     ("countries"%string, Json.array (List.map Json.string (userCountries r)))].

Definition stringify_serverReport (r : HourlyServerMetricsReportJson) : jsstring :=
  Json.object
    [("serverId"%string, Json.string (serverId r));
     ("startUtcMs"%string, Json.number (startUtcMs r));
     ("endUtcMs"%string, Json.number (endUtcMs r));
     ("userReports"%string, Json.array (List.map stringify_userReport (userReports r)))].

Definition stringify_featureReport (r : DailyFeatureMetricsReportJson) : jsstring :=
  Json.object
    [("serverId"%string, Json.string (featureServerId r));
     ("serverVersion"%string, Json.string (serverVersion r));
     ("timestampUtcMs"%string, Json.number (timestampUtcMs r));
     ("dataLimit"%string,
      Json.object [("enabled"%string, Json.boolean (enabled (dataLimit r)))])].

(** ** The URL of the service *)

Module Url.

Definition is_ascii_upper (c : N) : bool := ((65 <=? c) && (c <=? 90))%N.
Definition is_ascii_alpha (c : N) : bool :=
  (is_ascii_upper c || ((97 <=? c) && (c <=? 122)))%N.
Definition is_ascii_digit (c : N) : bool := ((48 <=? c) && (c <=? 57))%N.
Definition ascii_lower (c : N) : N := (if is_ascii_upper c then c + 32 else c)%N.

Definition is_c0_or_space (c : N) : bool := (c <=? 32)%N.
Definition is_tab_or_newline (c : N) : bool :=
  ((c =? 9) || (c =? 10) || (c =? 13))%N.

Fixpoint strip_leading (s : jsstring) : jsstring :=
  match s with
  | c :: rest => if is_c0_or_space c then strip_leading rest else s
  | [] => []
  end.

(** The input as the URL parser sees it: without leading and trailing C0
    controls and spaces, and without any tab or newline. *)
Definition preprocess (input : jsstring) : jsstring :=
  List.filter (λ c, negb (is_tab_or_newline c))
    (rev (strip_leading (rev (strip_leading input)))).

(** A code unit that may follow the first letter of a scheme. *)
Definition is_scheme_unit (c : N) : bool :=
  (is_ascii_alpha c || is_ascii_digit c
   || (c =? 43) || (c =? 45) || (c =? 46))%N.

(** Scheme state of the URL parser: collect the lowercased scheme up to
    the colon.  Without a base URL, anything else is a failure. *)
Fixpoint scheme_state (buffer rest : jsstring) : option (jsstring * jsstring) :=
  match rest with
  | [] => None
  | c :: rest' =>
      if is_scheme_unit c then scheme_state (buffer ++ [ascii_lower c]) rest'
      else if (c =? 58)%N then Some (buffer, rest')
      else None
  end.

(** Scheme start state: a scheme begins with a letter. *)
Definition scheme_start_state (input : jsstring) : option (jsstring * jsstring) :=
  match input with
  | c :: rest =>
      if is_ascii_alpha c then scheme_state [ascii_lower c] rest else None
  | [] => None
  end.

(** The two getters of a [URL] object that [postMetrics] reads. *)
Record t : Type := mk {
  protocol : jsstring;
  hostname : jsstring
}.

Section Parser.

(** The rest of the URL parser (authority, host, port, path), which sits
    in the platform: from the scheme and what follows its colon, the
    serialized host, or [None] where the constructor throws. *)
Variable parse_host : jsstring → jsstring → option jsstring.

(** [new URL(input)], with no base: [None] where it throws.  The
    [protocol] getter is the scheme followed by a colon. *)
Definition new (input : jsstring) : option t :=
  match scheme_start_state (preprocess input) with
  | None => None
  | Some (scheme, remaining) =>
      match parse_host scheme remaining with
      | None => None
      | Some host => Some {| protocol := scheme ++ lit ":"; hostname := host |}
      end
  end.

End Parser.

(** A host parser for service URLs of the plain form
    [scheme://host], [scheme://host:port] or [scheme://host/path]: the
    lowercased code units between the two slashes and the first colon,
    slash, question mark or number sign.  An empty host is refused. *)
Fixpoint host_units (s : jsstring) : jsstring :=
  match s with
  | [] => []
  | c :: rest =>
      if ((c =? 58) || (c =? 47) || (c =? 63) || (c =? 35))%N then []
      else ascii_lower c :: host_units rest
  end.

Definition plain_host (scheme remaining : jsstring) : option jsstring :=
  match remaining with
  | 47%N :: 47%N :: authority =>
      match host_units authority with
      | [] => None
      | host => Some host
      end
  | _ => None
  end.

End Url.

(** ** RestMetricsCollectorClient *)

Module Rest.

(** The two request modules of [follow-redirects]. *)
Inductive RequestModule : Type := http | https.

Record Headers : Type := mkHeaders {
  contentType : jsstring;
  contentLength : Z
}.

Record Options : Type := mkOptions {
  hostname : jsstring;
  path : jsstring;
  headers : Headers;
  method : jsstring
}.

(** What happens to the request once it is sent: the response callback
    runs with a status code, the ['error'] event fires, or neither. *)
Inductive Outcome : Type :=
| Response (statusCode : Z)
| RequestError (e : error)
| NoAnswer.

(** The state of the returned promise. *)
Inductive Promise : Type :=
| Resolved
| Rejected (e : error)
| Pending.

(** The calls of [postMetrics], oldest first; [Write] holds the bytes
    that go on the wire. *)
Inductive NetCall : Type :=
| LoggingInfo (message : jsstring)
| Request (module : RequestModule) (options : Options)
| Write (bytes : list N)
| End_.

Section Client.

Variable parse_host : jsstring → jsstring → option jsstring.
Variable serviceUrl : jsstring.

(** [requestModule] after the [if]. *)
Definition select_module (url : Url.t) : RequestModule :=
  if decide (Url.protocol url = lit "http") then http else https.

Definition request_options (url : Url.t) (urlPath reportJson : jsstring) : Options :=
  {| hostname := Url.hostname url;
     path := urlPath;
     headers := {| contentType := lit "application/json";
                   contentLength := Z.of_nat (length reportJson) |};
     method := lit "POST" |}.

(** The executor's callbacks: the response callback and the error
    listener. *)
Definition settle (outcome : Outcome) : Promise :=
  match outcome with
  | Response statusCode =>
      if (200 <=? statusCode) && (statusCode <? 300) then Resolved
      else Rejected
             (Error (lit "metrics server request failed with status code "
                       ++ of_number statusCode))
  | RequestError e => Rejected e
  | NoAnswer => Pending
  end.

(** [postMetrics]: [inl] when [new URL] throws (nothing is logged or
    sent), else the calls made and the promise returned. *)
Definition postMetrics (urlPath reportJson : jsstring) (outcome : Outcome)
  : error + (list NetCall * Promise) :=
  match Url.new parse_host serviceUrl with
  | None => inl (Error (lit "Invalid URL"))
  | Some url =>
      let requestModule := select_module url in
      let options := request_options url urlPath reportJson in
      inr ([LoggingInfo (lit "Posting metrics to " ++ serviceUrl ++ urlPath
                           ++ lit ": " ++ reportJson);
            Request requestModule options;
            Write (Json.utf8_encode reportJson);
            End_],
           settle outcome)
  end.

Definition collectServerUsageMetrics (reportJson : HourlyServerMetricsReportJson)
  : Outcome → error + (list NetCall * Promise) :=
  postMetrics (lit "/connections") (stringify_serverReport reportJson).

Definition collectFeatureMetrics (reportJson : DailyFeatureMetricsReportJson)
  : Outcome → error + (list NetCall * Promise) :=
  postMetrics (lit "/features") (stringify_featureReport reportJson).

End Client.

End Rest.

(** ** PrometheusUsageMetrics *)

Module Prometheus.

(** One sample of a query result: the label set [metric], an object used
    as a map from label names to label values, and [value[1]], the text
    of the sample value.  ([value[0]], the sample time, is not read.) *)
Record Sample : Type := mkSample {
  metric : gmap jsstring jsstring;
  value_1 : jsstring
}.

(** WhiteSpace and LineTerminator code units, which [trim] removes. *)
Definition is_white_space (c : N) : bool :=
  (((9 <=? c) && (c <=? 13)) || (c =? 32) || (c =? 160) || (c =? 5760)
   || ((8192 <=? c) && (c <=? 8202)) || (c =? 8232) || (c =? 8233)
   || (c =? 8239) || (c =? 8287) || (c =? 12288) || (c =? 65279))%N.

Fixpoint trimStart (s : jsstring) : jsstring :=
  match s with
  | c :: rest => if is_white_space c then trimStart rest else s
  | [] => []
  end.

(** [s.trim()]. *)
Definition trim (s : jsstring) : jsstring :=
  rev (trimStart (rev (trimStart s))).

(** [s.split(',')]: the substrings between the commas; the empty string
    splits into one empty substring. *)
Fixpoint split_comma (s : jsstring) : list jsstring :=
  match s with
  | [] => [[]]
  | c :: rest =>
      if (c =? 44)%N then [] :: split_comma rest
      else match split_comma rest with
           | part :: parts => (c :: part) :: parts
           | [] => [[c]]
           end
  end.

(** [countries] after the [if (countriesStr)]. *)
Definition countries_of (countriesStr : jsstring) : list jsstring :=
  match countriesStr with
  | [] => []
  | _ :: _ => List.map trim (split_comma countriesStr)
  end.

(** [Math.round(x / 1000)] for an integral [x] below 2^53 in magnitude:
    the nearest integer to the quotient, a half rounding up. *)
Definition round_thousandth (x : Z) : Z := (x + 500) / 1000.

(** The query text, for a window of [timeDeltaSecs] seconds. *)
Definition query_text (timeDeltaSecs : Z) : jsstring :=
  lit "sum(increase(shadowsocks_data_bytes{dir=~" ++ [34%N] ++ lit "p>t|p<t"
  ++ [34%N] ++ lit "}[" ++ of_number timeDeltaSecs
  ++ lit "s])) by (location, access_key)".

Section Source.

(** [Math.round(parseFloat(text))] on the sample values of the backend,
    which are finite decimal numbers; number parsing sits in the
    platform. *)
Variable round_parseFloat : jsstring → Z.

(** One iteration of the loop over [result.result]. *)
Definition push_usage (usage : list KeyUsage) (entry : Sample) : list KeyUsage :=
  let accessKeyId := or_string (metric entry !! lit "access_key") [] in
  let countriesStr := or_string (metric entry !! lit "location") [] in
  let countries := countries_of countriesStr in
  let inboundBytes := round_parseFloat (value_1 entry) in
  usage ++ [ {| accessKeyId := accessKeyId;
                countries := countries;
                inboundBytes := inboundBytes |} ].

(** [getUsage()], for an object whose [resetTimeMs] is given: [dateNow]
    is what [Date.now()] reads and [query] what the Prometheus client
    answers to a query text.  The result is the query sent and the
    promise's outcome. *)
Definition getUsage (resetTimeMs dateNow : Z)
    (query : jsstring → error + list Sample)
  : jsstring * (error + list KeyUsage) :=
  let timeDeltaSecs := round_thousandth (dateNow - resetTimeMs) in
  let text := query_text timeDeltaSecs in
  (text,
   match query text with
   | inl err => inl err
   | inr result => inr (fold_left push_usage result [])
   end).

(** [reset()]: the new [resetTimeMs]. *)
Definition reset (dateNow : Z) : Z := dateNow.

End Source.

End Prometheus.

(** ** Timer callbacks in flight *)

(** An [async] callback runs until its next [await] and is resumed when
    the awaited promise settles; in between, other callbacks and the
    methods of the publisher may run.  The segments below are the timer
    callbacks of the constructor cut at their [await]s. *)

(** Where a timer callback waits: at [await usageMetrics.getUsage()];
    at [await this.reportServerUsageMetrics(..)], which itself either
    waits at [await collectServerUsageMetrics(report)] ([delivering]) or
    has returned without delivering; at
    [await this.reportFeatureMetrics()], which waits at
    [await collectFeatureMetrics(..)]. *)
Inductive Suspended : Type :=
| AwaitingUsage
| AwaitingReport (delivering : bool)
| AwaitingFeatures.

(** What a promise settles with, read when the callback is resumed. *)
Definition settled {A : Type} (answer : World → A) : M A :=
  λ w st, (inr (answer w), st).

(** The publisher and the callbacks that wait on a promise. *)
Record System : Type := mkSystem {
  publisher : State;
  inflight : list Suspended
}.

(** Something that happens to the system: a method call or a timer
    firing ([Happens]), or the promise that the [i]-th waiting callback
    awaits settling ([Resumes]), with what the collaborators answer
    during the segment that then runs. *)
Inductive Action : Type :=
| Happens (ev : Event)
| Resumes (i : nat) (w : World).

Section InFlight.

Variable toMetricsId : jsstring → option jsstring.
Variable version : jsstring.

(** The hourly callback up to [await usageMetrics.getUsage()]: the
    gate, then the call of [getUsage()]. *)
Definition hourly_fires : M (option Suspended) :=
  sharing ← isSharingEnabled;
  if negb (truthy sharing) then mret None
  else
    call GetUsage (λ _, tt);;
    mret (Some AwaitingUsage).

(** [reportServerUsageMetrics] up to its [await], or to its early
    [return]. *)
Definition report_begins (usageMetrics : list KeyUsage) : M (option Suspended) :=
  reportEndTimestampMs ← clock_now;
  data ← serverConfig_data;
  start ← get_reportStartTimestampMs;
  let report := build_report toMetricsId data start reportEndTimestampMs usageMetrics in
  call (ReportBuilt report) (λ _, tt);;
  set_reportStartTimestampMs reportEndTimestampMs;;
  if (length (userReports report) =? 0)%nat then mret (Some (AwaitingReport false))
  else
    call (CollectServerUsageMetrics report) (λ _, tt);;
    mret (Some (AwaitingReport true)).

(** The hourly callback resumed with the outcome of [getUsage()]: a
    rejection goes to the [catch]. *)
Definition usage_settles : M (option Suspended) :=
  answer ← settled getUsage;
  match answer with
  | inl err =>
      console_error (lit "Failed to report server usage metrics: "
                       ++ error_to_string err);;
      mret None
  | inr usage => report_begins usage
  end.

(** The hourly callback resumed with the outcome of
    [reportServerUsageMetrics]: [reset()], or the [catch]. *)
Definition report_settles (delivering : bool) : M (option Suspended) :=
  answer ← settled collectServerUsageMetrics;
  match delivering, answer with
  | true, inl err =>
      console_error (lit "Failed to report server usage metrics: "
                       ++ error_to_string err);;
      mret None
  | _, _ => usageMetrics_reset;; mret None
  end.

(** The daily callback up to [await collectFeatureMetrics(..)]. *)
Definition daily_fires : M (option Suspended) :=
  sharing ← isSharingEnabled;
  if negb (truthy sharing) then mret None
  else
    data ← serverConfig_data;
    timestamp ← clock_now;
    let featureMetricsReport :=
      {| featureServerId := configServerId data;
         serverVersion := version;
         timestampUtcMs := timestamp;
         dataLimit :=
           {| enabled := match accessKeyDataLimit data with
                         | Some _ => true
                         | None => false
                         end |} |} in
    call (CollectFeatureMetrics featureMetricsReport) (λ _, tt);;
    mret (Some AwaitingFeatures).

(** The daily callback resumed with the outcome of the delivery. *)
Definition features_settle : M (option Suspended) :=
  answer ← settled collectFeatureMetrics;
  match answer with
  | inl err =>
      console_error (lit "Failed to report feature metrics: "
                       ++ error_to_string err);;
      mret None
  | inr _ => mret None
  end.

Definition resume (k : Suspended) : M (option Suspended) :=
  match k with
  | AwaitingUsage => usage_settles
  | AwaitingReport delivering => report_settles delivering
  | AwaitingFeatures => features_settle
  end.

(** Run a segment on the publisher; when it stops at an [await], the
    callback joins the waiting ones. *)
Definition advance (segment : M (option Suspended)) (w : World)
    (st : State) (waiting : list Suspended) : System :=
  match segment w st with
  | (inr (Some k), st') => {| publisher := st'; inflight := waiting ++ [k] |}
  | (_, st') => {| publisher := st'; inflight := waiting |}
  end.

Definition act (sys : System) (a : Action) : System :=
  match a with
  | Happens StartSharing =>
      {| publisher := startSharing (publisher sys); inflight := inflight sys |}
  | Happens StopSharing =>
      {| publisher := stopSharing (publisher sys); inflight := inflight sys |}
  | Happens (HourlyTick w) => advance hourly_fires w (publisher sys) (inflight sys)
  | Happens (DailyTick w) => advance daily_fires w (publisher sys) (inflight sys)
  | Resumes i w =>
      match inflight sys !! i with
      | None => sys
      | Some k => advance (resume k) w (publisher sys) (delete i (inflight sys))
      end
  end.

Definition perform (sys : System) (actions : list Action) : System :=
  fold_left act actions sys.

End InFlight.

(** ** Vocabulary of the statements *)

(** The calls made between an earlier state and a later one. *)
Definition calls_since (before after : State) : list Call :=
  drop (length (trace before)) (trace after).

(** The reports built, oldest first, among a list of calls. *)
Fixpoint built_reports (calls : list Call) : list HourlyServerMetricsReportJson :=
  match calls with
  | [] => []
  | ReportBuilt report :: rest => report :: built_reports rest
  | _ :: rest => built_reports rest
  end.

(** A usage fetch or a delivery to the metrics collector. *)
Definition is_fetch_or_delivery (c : Call) : bool :=
  match c with
  | GetUsage | CollectServerUsageMetrics _ | CollectFeatureMetrics _ => true
  | _ => false
  end.

Definition is_delivery (c : Call) : bool :=
  match c with
  | CollectServerUsageMetrics _ | CollectFeatureMetrics _ => true
  | _ => false
  end.

Definition is_tick (ev : Event) : bool :=
  match ev with
  | HourlyTick _ | DailyTick _ => true
  | _ => false
  end.

Definition is_request (c : Rest.NetCall) : bool :=
  match c with
  | Rest.Request _ _ => true
  | _ => false
  end.

(** The user report that the loop pushes for a usage entry. *)
Definition user_report (toMetricsId : jsstring → option jsstring)
    (keyUsage : KeyUsage) : HourlyUserMetricsReportJson :=
  {| userId := or_string (toMetricsId (accessKeyId keyUsage)) [];
     bytesTransferred := inboundBytes keyUsage;
     userCountries := countries keyUsage |}.

(** The entries for which the loop reaches the push. *)
Definition survives (keyUsage : KeyUsage) : bool :=
  negb (inboundBytes keyUsage =? 0)
  && negb (hasSanctionedCountry (countries keyUsage)).

Definition sharing (st : State) : bool :=
  truthy (metricsEnabled (serverConfig st)).

(** The message of the hourly callback's [console.error]. *)
Definition usage_failure (err : error) : Call :=
  ConsoleError (lit "Failed to report server usage metrics: "
                  ++ error_to_string err).

(** The calls of an hourly callback that passes the gate and whose fetch
    answers [usage], given the report it builds. *)
Definition calls_after_fetch (w : World) (report : HourlyServerMetricsReportJson)
  : list Call :=
  [GetUsage; ClockNow; ReportBuilt report]
  ++ match userReports report with
     | [] => [Reset]
     | _ :: _ =>
         CollectServerUsageMetrics report
         :: match collectServerUsageMetrics w with
            | inr _ => [Reset]
            | inl err => [usage_failure err]
            end
     end.

(** An entry with usage from the United States and from North Korea. *)
Definition mixed_entry : KeyUsage :=
  {| accessKeyId := lit "a";
     countries := [lit "US"; lit "KP"];
     inboundBytes := 1000 |}.

#[global] Arguments calls_after_fetch : simpl never.

(** The calls of a daily callback that passes the gate, given the
    feature report it builds. *)
Definition feature_failure (err : error) : Call :=
  ConsoleError (lit "Failed to report feature metrics: " ++ error_to_string err).

Definition calls_of_daily (w : World) (report : DailyFeatureMetricsReportJson)
  : list Call :=
  [ClockNow; CollectFeatureMetrics report]
  ++ match collectFeatureMetrics w with
     | inr _ => []
     | inl err => [feature_failure err]
     end.

#[global] Arguments calls_of_daily : simpl never.

(** Report windows that follow one another: the first starts at [start],
    each next one starts where the one before it ends, and [cursor] is
    the end of the last (or [start] when there is none). *)
Fixpoint chained (start : Z) (reports : list HourlyServerMetricsReportJson)
    (cursor : Z) : Prop :=
  match reports with
  | [] => cursor = start
  | r :: rest => startUtcMs r = start ∧ chained (endUtcMs r) rest cursor
  end.

(** A configuration in which sharing was switched on. *)
Definition sharing_config : ServerConfigJson :=
  {| configServerId := lit "server-1";
     metricsEnabled := Bool true;
     accessKeyDataLimit := None |}.

(** A configuration file that never mentioned [metricsEnabled]. *)
Definition fresh_config : ServerConfigJson :=
  {| configServerId := lit "server-1";
     metricsEnabled := Undefined;
     accessKeyDataLimit := None |}.

Definition us_entry : KeyUsage :=
  {| accessKeyId := lit "a"; countries := [lit "US"]; inboundBytes := 1000 |}.

Definition kp_entry : KeyUsage :=
  {| accessKeyId := lit "b"; countries := [lit "KP"]; inboundBytes := 500 |}.

Definition idle_entry : KeyUsage :=
  {| accessKeyId := lit "c"; countries := []; inboundBytes := 0 |}.

(** A callback during which the clock reads [t], the usage source
    answers [usage], and the collector answers every delivery with
    [delivery]. *)
Definition world (t : Z) (usage : list KeyUsage) (delivery : error + unit) : World :=
  {| now := t;
     getUsage := inr usage;
     collectServerUsageMetrics := delivery;
     collectFeatureMetrics := delivery |}.

Definition status_503 : error :=
  Error (lit "metrics server request failed with status code 503").

(** Three hourly ticks; the second delivery is rejected with status 503. *)
Definition three_hours : list Event :=
  [HourlyTick (world 3600000 [us_entry] (inr tt));
   HourlyTick (world 7200000 [us_entry] (inl status_503));
   HourlyTick (world 10800000 [us_entry] (inr tt))].

(** A service URL with the plain-HTTP scheme and one with HTTPS. *)
Definition http_service : jsstring := lit "http://metrics.example.com:8080".
Definition https_service : jsstring := lit "https://metrics.example.com".

(** Usage whose location label is not ASCII: R, e with acute accent,
    u, n, i, o, n. *)
Definition reunion_entry : KeyUsage :=
  {| accessKeyId := lit "a";
     countries := [[82; 233; 117; 110; 105; 111; 110]%N];
     inboundBytes := 1000 |}.

Definition reunion_report : HourlyServerMetricsReportJson :=
  build_report Some sharing_config 0 MS_PER_HOUR [reunion_entry].

(** The calls of posting the body [{}] to [https_service]. *)
Definition sample_post_calls : list Rest.NetCall :=
  [Rest.LoggingInfo
     (lit "Posting metrics to " ++ https_service ++ lit "/connections"
        ++ lit ": " ++ lit "{}");
   Rest.Request Rest.https
     (Rest.request_options
        (Url.mk (lit "https:") (lit "metrics.example.com"))
        (lit "/connections") (lit "{}"));
   Rest.Write (Json.utf8_encode (lit "{}"));
   Rest.End_].

(** A configuration with sharing on and a data limit on access keys. *)
Definition capped_config : ServerConfigJson :=
  {| configServerId := lit "server-1";
     metricsEnabled := Bool true;
     accessKeyDataLimit := Some 1000000 |}.

(** The usage entry that the loop of [getUsage] pushes for a sample. *)
Definition usage_of_sample (round_parseFloat : jsstring → Z)
    (entry : Prometheus.Sample) : KeyUsage :=
  {| accessKeyId := or_string (Prometheus.metric entry !! lit "access_key") [];
     countries :=
       Prometheus.countries_of
         (or_string (Prometheus.metric entry !! lit "location") []);
     inboundBytes := round_parseFloat (Prometheus.value_1 entry) |}.

(** A string with no white space at its start. *)
Definition starts_clean (s : jsstring) : Prop :=
  match s with
  | c :: _ => Prometheus.is_white_space c = false
  | [] => True
  end.

(** The reports handed to the collector, oldest first, among a list of
    calls. *)
Fixpoint delivered_reports (calls : list Call)
  : list HourlyServerMetricsReportJson :=
  match calls with
  | [] => []
  | CollectServerUsageMetrics report :: rest => report :: delivered_reports rest
  | _ :: rest => delivered_reports rest
  end.

(** A report of the server [id] that has user reports, none of them
    with zero bytes or with a sanctioned country. *)
Definition clean_report (id : jsstring) (r : HourlyServerMetricsReportJson) : Prop :=
  serverId r = id
  ∧ userReports r ≠ []
  ∧ Forall (λ u, bytesTransferred u ≠ 0
                 ∧ Forall (λ c, c ∉ SANCTIONED_COUNTRIES) (userCountries u))
      (userReports r).

(** The clock does not go backwards: the readings offered to the
    successive timer callbacks are at least [t] and never decrease. *)
Fixpoint clock_monotone (t : Z) (events : list Event) : Prop :=
  match events with
  | [] => True
  | HourlyTick w :: rest | DailyTick w :: rest =>
      t ≤ now w ∧ clock_monotone (now w) rest
  | _ :: rest => clock_monotone t rest
  end.

(** The opt-in flag after a call of the management API. *)
Definition toggle (flag : value) (ev : Event) : value :=
  match ev with
  | StartSharing => Bool true
  | StopSharing => Bool false
  | _ => flag
  end.

(** A call on the usage source. *)
Definition is_usage_source_call (c : Call) : bool :=
  match c with
  | GetUsage | Reset => true
  | _ => false
  end.

(** What awaiting the promise of the REST client gives the caller: the
    error thrown or rejected, the resolution, or nothing while the
    promise stays pending. *)
Definition awaited (posted : error + (list Rest.NetCall * Rest.Promise))
  : option (error + unit) :=
  match posted with
  | inl e => Some (inl e)
  | inr (_, Rest.Resolved) => Some (inr tt)
  | inr (_, Rest.Rejected e) => Some (inl e)
  | inr (_, Rest.Pending) => None
  end.

(** The feature reports handed to the collector among a list of calls. *)
Fixpoint feature_reports (calls : list Call) : list DailyFeatureMetricsReportJson :=
  match calls with
  | [] => []
  | CollectFeatureMetrics report :: rest => report :: feature_reports rest
  | _ :: rest => feature_reports rest
  end.

(** The configurations written among a list of calls, oldest first. *)
Fixpoint config_writes (calls : list Call) : list ServerConfigJson :=
  match calls with
  | [] => []
  | ConfigWrite data :: rest => data :: config_writes rest
  | _ :: rest => config_writes rest
  end.

(** A call that a daily callback may make. *)
Definition is_daily_call (c : Call) : bool :=
  match c with
  | ClockNow | CollectFeatureMetrics _ | ConsoleError _ => true
  | _ => false
  end.

(** A publisher with no callback in flight. *)
Definition idle (st : State) : System :=
  {| publisher := st; inflight := [] |}.

(** The callbacks that wait for the usage fetch. *)
Fixpoint awaiting_usage (waiting : list Suspended) : nat :=
  match waiting with
  | [] => 0
  | AwaitingUsage :: rest => S (awaiting_usage rest)
  | _ :: rest => awaiting_usage rest
  end.

(** A call that a timer callback makes before its first [await]: the
    usage fetch of the hourly callback, the delivery of the daily one. *)
Definition is_first_segment_call (c : Call) : bool :=
  match c with
  | GetUsage | CollectFeatureMetrics _ => true
  | _ => false
  end.

(** An hourly tick is waiting for its usage fetch; [stopSharing()] is
    called; then the fetch is answered. *)
Definition tick_in_flight : System :=
  act Some (lit "1.0.0") (idle (construct 0 sharing_config))
    (Happens (HourlyTick (world MS_PER_HOUR [] (inr tt)))).

Definition fetch_answered : list Action :=
  [Resumes 0 (world MS_PER_HOUR [us_entry] (inr tt))].

(** * Properties *)

(** ** The embedding on concrete inputs *)

(** Usage from the United States is reported, usage from North Korea is
    not: one delivery, with the one user report, then the reset. *)
Example hourly_tick_reports_us_usage :
  calls_since (construct 0 sharing_config)
    (exec (hourly_callback Some) (world MS_PER_HOUR [us_entry; kp_entry] (inr tt))
       (construct 0 sharing_config))
  = let report :=
      {| serverId := lit "server-1"; startUtcMs := 0; endUtcMs := 3600000;
         userReports := [ {| userId := lit "a"; bytesTransferred := 1000;
                             userCountries := [lit "US"] |} ] |} in
    [GetUsage; ClockNow; ReportBuilt report; CollectServerUsageMetrics report; Reset].
Proof. vm_compute. reflexivity. Qed.

(** A delivery rejected with status 503 is logged; the cursor has moved. *)
Example hourly_tick_with_rejected_delivery :
  let st' := exec (hourly_callback Some) (world MS_PER_HOUR [us_entry] (inl status_503))
               (construct 0 sharing_config) in
  reportStartTimestampMs st' = 3600000
  ∧ last (trace st')
    = Some (ConsoleError
              (lit "Failed to report server usage metrics: Error: metrics server request failed with status code 503")).
Proof. split; vm_compute; reflexivity. Qed.

(** A fetch that fails is logged, and nothing else happens. *)
Example hourly_tick_with_failed_fetch :
  exec (hourly_callback Some)
    {| now := MS_PER_HOUR; getUsage := inl (Error (lit "timeout"));
       collectServerUsageMetrics := inr tt; collectFeatureMetrics := inr tt |}
    (construct 0 sharing_config)
  = {| reportStartTimestampMs := 0;
       serverConfig := sharing_config;
       trace := [ClockNow; ClockSetInterval 3600000; ClockSetInterval 86400000;
                 GetUsage;
                 ConsoleError
                   (lit "Failed to report server usage metrics: Error: timeout")] |}.
Proof. vm_compute. reflexivity. Qed.

(** The daily report says whether a data limit is configured. *)
Example daily_tick_reports_data_limit :
  calls_since (construct 0 capped_config)
    (exec (daily_callback (lit "1.0.0")) (world MS_PER_DAY [] (inr tt))
       (construct 0 capped_config))
  = [ClockNow;
     CollectFeatureMetrics
       {| featureServerId := lit "server-1"; serverVersion := lit "1.0.0";
          timestampUtcMs := 86400000; dataLimit := {| enabled := true |} |}].
Proof. vm_compute. reflexivity. Qed.

(** The JSON text of a feature report. *)
Example stringify_featureReport_example :
  stringify_featureReport
    {| featureServerId := lit "server-1"; serverVersion := lit "1.0.0";
       timestampUtcMs := 86400000; dataLimit := {| enabled := true |} |}
  = [123; 34]%N ++ lit "serverId" ++ [34; 58; 34]%N ++ lit "server-1"
    ++ [34; 44; 34]%N ++ lit "serverVersion" ++ [34; 58; 34]%N ++ lit "1.0.0"
    ++ [34; 44; 34]%N ++ lit "timestampUtcMs" ++ [34; 58]%N ++ lit "86400000"
    ++ [44; 34]%N ++ lit "dataLimit" ++ [34; 58; 123; 34]%N ++ lit "enabled"
    ++ [34; 58]%N ++ lit "true}}".
Proof. vm_compute. reflexivity. Qed.

(** The UTF-8 bytes of e with acute accent, the euro sign, a surrogate
    pair and a lone surrogate. *)
Example utf8_encode_example :
  Json.utf8_encode [233; 8364; 55357; 56832; 55357]%N
  = [195; 169; 226; 130; 172; 240; 159; 152; 128; 239; 191; 189]%N.
Proof. vm_compute. reflexivity. Qed.

(** ** The filter of the hourly report *)

Lemma is_sanctioned_spec country :
  is_sanctioned country = true ↔ country ∈ SANCTIONED_COUNTRIES.
Proof.
  unfold is_sanctioned. rewrite bool_decide_eq_true. reflexivity.
Qed.

Lemma hasSanctionedCountry_true cs :
  hasSanctionedCountry cs = true ↔ Exists (λ c, c ∈ SANCTIONED_COUNTRIES) cs.
Proof.
  induction cs as [|c cs IH]; simpl.
  - split; [discriminate | intros H; inversion H].
  - destruct (is_sanctioned c) eqn:Hc.
    + split; [intros _ | reflexivity].
      apply Exists_cons_hd, is_sanctioned_spec, Hc.
    + rewrite IH. split.
      * apply Exists_cons_tl.
      * intros H. inversion H as [? ? Hin|]; subst; [|assumption].
        apply is_sanctioned_spec in Hin. congruence.
Qed.

Lemma hasSanctionedCountry_false cs :
  hasSanctionedCountry cs = false ↔ Forall (λ c, c ∉ SANCTIONED_COUNTRIES) cs.
Proof.
  rewrite <- not_true_iff_false, hasSanctionedCountry_true.
  rewrite <- Forall_Exists_neg. reflexivity.
Qed.

Section Filter.

Variable toMetricsId : jsstring → option jsstring.

Lemma push_userReport_survives acc k :
  push_userReport toMetricsId acc k =
  if survives k then acc ++ [user_report toMetricsId k] else acc.
Proof.
  unfold push_userReport, survives, user_report.
  destruct (inboundBytes k =? 0); simpl; [reflexivity|].
  destruct (hasSanctionedCountry (countries k)); reflexivity.
Qed.

Lemma fold_push_userReport usage : ∀ acc,
  fold_left (push_userReport toMetricsId) usage acc =
  acc ++ List.map (user_report toMetricsId) (List.filter survives usage).
Proof.
  induction usage as [|k usage IH]; intros acc; simpl.
  - symmetry. apply app_nil_r.
  - rewrite IH, push_userReport_survives.
    destruct (survives k); simpl; [|reflexivity].
    rewrite <- app_assoc. reflexivity.
Qed.

(** The loop is a filter followed by a map. *)
Lemma build_userReports_filter usage :
  build_userReports toMetricsId usage =
  List.map (user_report toMetricsId) (List.filter survives usage).
Proof. unfold build_userReports. apply fold_push_userReport. Qed.

Lemma elem_of_build_userReports r usage :
  r ∈ build_userReports toMetricsId usage ↔
  ∃ k, k ∈ usage ∧ survives k = true ∧ r = user_report toMetricsId k.
Proof.
  rewrite build_userReports_filter, list_elem_of_In, in_map_iff.
  split.
  - intros (k & Hr & Hk). apply filter_In in Hk as [Hin Hs].
    exists k. rewrite list_elem_of_In. auto.
  - intros (k & Hin & Hs & Hr). exists k. split; [auto|].
    apply filter_In. rewrite <- list_elem_of_In. auto.
Qed.

Lemma build_userReports_nil usage :
  build_userReports toMetricsId usage = [] ↔
  Forall (λ k, survives k = false) usage.
Proof.
  rewrite build_userReports_filter. induction usage as [|k usage IH]; simpl.
  - split; [constructor | reflexivity].
  - destruct (survives k) eqn:Hk; simpl.
    + split; [discriminate|]. intros H. inversion H; congruence.
    + rewrite IH. split; [by constructor | by inversion 1].
Qed.

End Filter.

(** C1, as stated, fails: the claim says that an entry with positive bytes
    is suppressed only when all of its countries are sanctioned, and is
    reported as soon as one of them is not.  The entry [mixed_entry] has a
    country that is not sanctioned, and the loop skips it. *)
Lemma mixed_entry_refutes_all_sanctioned_policy :
  ¬ (∀ (toMetricsId : jsstring → option jsstring) (usage : list KeyUsage)
       (k : KeyUsage),
        k ∈ usage → 0 < inboundBytes k →
        (user_report toMetricsId k ∉ build_userReports toMetricsId usage →
         Forall (λ c, c ∈ SANCTIONED_COUNTRIES) (countries k))
        ∧ (Exists (λ c, c ∉ SANCTIONED_COUNTRIES) (countries k) →
           user_report toMetricsId k ∈ build_userReports toMetricsId usage)).
Proof.
  intros claim.
  destruct (claim Some [mixed_entry] mixed_entry) as [_ reported].
  - apply list_elem_of_here.
  - reflexivity.
  - assert (Hin : user_report Some mixed_entry ∈ build_userReports Some [mixed_entry]).
    { apply reported. apply Exists_cons_hd. vm_compute. intros H. discriminate H. }
    vm_compute in Hin. inversion Hin.
Qed.

(** C1, amended: an entry with positive bytes is suppressed exactly when
    at least one country of its list is in the sanctioned set, and it
    appears among the user reports exactly when none is. *)
Theorem entry_reported_iff_no_sanctioned_country
    (toMetricsId : jsstring → option jsstring) (usage : list KeyUsage)
    (k : KeyUsage) :
  k ∈ usage → 0 < inboundBytes k →
  (user_report toMetricsId k ∉ build_userReports toMetricsId usage ↔
   Exists (λ c, c ∈ SANCTIONED_COUNTRIES) (countries k))
  ∧ (user_report toMetricsId k ∈ build_userReports toMetricsId usage ↔
     Forall (λ c, c ∉ SANCTIONED_COUNTRIES) (countries k)).
Proof.
  intros Hin Hpos.
  assert (Hrep : user_report toMetricsId k ∈ build_userReports toMetricsId usage
                 ↔ hasSanctionedCountry (countries k) = false).
  { rewrite elem_of_build_userReports. split.
    - intros (k' & _ & Hs & Heq).
      apply (f_equal userCountries) in Heq. simpl in Heq. rewrite Heq.
      unfold survives in Hs. apply andb_true_iff in Hs as [_ Hs].
      apply negb_true_iff in Hs. exact Hs.
    - intros Hs. exists k. split; [exact Hin|]. split; [|reflexivity].
      unfold survives. rewrite Hs.
      destruct (Z.eqb_spec (inboundBytes k) 0); [lia | reflexivity]. }
  split.
  - rewrite Hrep, <- hasSanctionedCountry_true.
    destruct (hasSanctionedCountry (countries k)); intuition congruence.
  - rewrite Hrep. apply hasSanctionedCountry_false.
Qed.

Lemma entry_reported_iff_no_sanctioned_country_witness :
  (user_report Some mixed_entry ∉ build_userReports Some [mixed_entry] ↔
   Exists (λ c, c ∈ SANCTIONED_COUNTRIES) (countries mixed_entry))
  ∧ (user_report Some mixed_entry ∈ build_userReports Some [mixed_entry] ↔
     Forall (λ c, c ∉ SANCTIONED_COUNTRIES) (countries mixed_entry)).
Proof.
  apply (entry_reported_iff_no_sanctioned_country Some [mixed_entry] mixed_entry).
  - apply list_elem_of_here.
  - reflexivity.
Defined.

(** C6: no user report of an hourly report carries zero bytes, and the
    user report of a usage entry whose [inboundBytes] is 0 is not among
    them. *)
Theorem zero_byte_entries_not_reported
    (toMetricsId : jsstring → option jsstring) (data : ServerConfigJson)
    (start reportEnd : Z) (usage : list KeyUsage) :
  let report := build_report toMetricsId data start reportEnd usage in
  Forall (λ r, bytesTransferred r ≠ 0) (userReports report)
  ∧ ∀ k, inboundBytes k = 0 → user_report toMetricsId k ∉ userReports report.
Proof.
  simpl.
  assert (Hall : Forall (λ r, bytesTransferred r ≠ 0)
                   (build_userReports toMetricsId usage)).
  { apply Forall_forall. intros r Hr.
    apply elem_of_build_userReports in Hr as (k & _ & Hs & ->). simpl.
    unfold survives in Hs. apply andb_true_iff in Hs as [Hs _].
    apply negb_true_iff in Hs. apply Z.eqb_neq in Hs. exact Hs. }
  split; [exact Hall|].
  intros k Hzero Hin.
  rewrite Forall_forall in Hall. apply (Hall _ Hin). exact Hzero.
Qed.

Lemma zero_byte_entries_not_reported_witness :
  user_report Some idle_entry
  ∉ userReports (build_report Some sharing_config 0 3600000 [idle_entry; us_entry]).
Proof.
  apply (zero_byte_entries_not_reported Some _ 0 3600000 _).
  reflexivity.
Defined.

(** ** The timer callbacks, case by case *)

Section Callbacks.

Variable toMetricsId : jsstring → option jsstring.
Variable version : jsstring.

Local Abbreviation hourly := (hourly_callback toMetricsId).
Local Abbreviation daily := (daily_callback version).

Lemma truthy_isSharingEnabled w st :
  isSharingEnabled w st = (inr (Js.or (metricsEnabled (serverConfig st)) (Bool false)), st)
  ∧ truthy (Js.or (metricsEnabled (serverConfig st)) (Bool false)) = sharing st.
Proof.
  split; [reflexivity|]. unfold sharing, Js.or.
  destruct (truthy (metricsEnabled (serverConfig st))) eqn:H; [exact H | reflexivity].
Qed.

Lemma hourly_disabled w st :
  sharing st = false → hourly w st = (inr tt, st).
Proof.
  intros H. unfold hourly_callback, mbind, M_bind.
  destruct (truthy_isSharingEnabled w st) as [-> ->]. rewrite H. reflexivity.
Qed.

Lemma daily_disabled w st :
  sharing st = false → daily w st = (inr tt, st).
Proof.
  intros H. unfold daily_callback, mbind, M_bind.
  destruct (truthy_isSharingEnabled w st) as [-> ->]. rewrite H. reflexivity.
Qed.

Lemma hourly_fetch_failed w st err :
  sharing st = true → getUsage w = inl err →
  hourly w st =
  (inr tt,
   {| reportStartTimestampMs := reportStartTimestampMs st;
      serverConfig := serverConfig st;
      trace := trace st ++ [GetUsage; usage_failure err] |}).
Proof.
  intros H Hfetch. unfold hourly_callback, mbind, M_bind.
  destruct (truthy_isSharingEnabled w st) as [-> ->]. rewrite H. cbn.
  unfold try_catch, usageMetrics_getUsage, await. rewrite Hfetch.
  unfold console_error, call, log, usage_failure. cbn.
  rewrite <- app_assoc. reflexivity.
Qed.

Lemma hourly_fetched w st usage :
  sharing st = true → getUsage w = inr usage →
  hourly w st =
  (inr tt,
   {| reportStartTimestampMs := now w;
      serverConfig := serverConfig st;
      trace := trace st
               ++ calls_after_fetch w
                    (build_report toMetricsId (serverConfig st)
                       (reportStartTimestampMs st) (now w) usage) |}).
Proof.
  intros H Hfetch. unfold hourly_callback, mbind, M_bind.
  destruct (truthy_isSharingEnabled w st) as [-> ->]. rewrite H. cbn.
  unfold try_catch, usageMetrics_getUsage, await. rewrite Hfetch.
  unfold reportServerUsageMetrics, calls_after_fetch, mbind, M_bind. cbn.
  destruct (build_userReports toMetricsId usage) as [|r rs] eqn:Hreports; cbn.
  - unfold log. cbn. rewrite <- !app_assoc. reflexivity.
  - unfold metricsCollector_collectServerUsageMetrics, await.
    destruct (collectServerUsageMetrics w) as [err|[]]; cbn;
      unfold console_error, call, log, usage_failure; cbn;
      rewrite <- !app_assoc; reflexivity.
Qed.

Lemma daily_enabled w st :
  sharing st = true →
  daily w st =
  (inr tt,
   {| reportStartTimestampMs := reportStartTimestampMs st;
      serverConfig := serverConfig st;
      trace := trace st
               ++ calls_of_daily w
                    {| featureServerId := configServerId (serverConfig st);
                       serverVersion := version;
                       timestampUtcMs := now w;
                       dataLimit :=
                         {| enabled := match accessKeyDataLimit (serverConfig st) with
                                       | Some _ => true
                                       | None => false
                                       end |} |} |}).
Proof.
  intros H. unfold daily_callback, mbind, M_bind.
  destruct (truthy_isSharingEnabled w st) as [-> ->]. rewrite H. cbn.
  unfold try_catch, reportFeatureMetrics, calls_of_daily, mbind, M_bind. cbn.
  unfold metricsCollector_collectFeatureMetrics, await.
  destruct (collectFeatureMetrics w) as [err|[]]; cbn;
    unfold console_error, call, log, feature_failure; cbn;
    rewrite <- !app_assoc; reflexivity.
Qed.

(** The calls of an hourly callback, read off the trace. *)
Lemma calls_since_app st st' extra :
  trace st' = trace st ++ extra → calls_since st st' = extra.
Proof. intros H. unfold calls_since. rewrite H. apply drop_app_length. Qed.

Lemma calls_of_hourly_fetched w st usage :
  sharing st = true → getUsage w = inr usage →
  calls_since st (exec hourly w st) =
  calls_after_fetch w
    (build_report toMetricsId (serverConfig st)
       (reportStartTimestampMs st) (now w) usage).
Proof.
  intros H Hfetch. apply calls_since_app.
  unfold exec. rewrite (hourly_fetched w st usage H Hfetch). reflexivity.
Qed.

End Callbacks.

(** ** Reset of the usage source *)

(** C2, as stated, fails: with sharing on and a fetch that succeeds, a
    delivery that the collector rejects with status 503 leaves the
    callback without a call of [reset()]. *)
Lemma rejected_delivery_skips_reset :
  ¬ (∀ (toMetricsId : jsstring → option jsstring) (st : State) (w : World)
       (usage : list KeyUsage),
        sharing st = true → getUsage w = inr usage →
        Reset ∈ calls_since st (exec (hourly_callback toMetricsId) w st)).
Proof.
  intros claim.
  pose (st := construct 0 sharing_config).
  pose (w := world MS_PER_HOUR [us_entry] (inl status_503)).
  specialize (claim Some st w [us_entry] eq_refl eq_refl).
  rewrite (calls_of_hourly_fetched Some w st [us_entry] eq_refl eq_refl) in claim.
  vm_compute in claim.
  repeat (apply elem_of_cons in claim as [claim|claim]; [discriminate claim|]).
  inversion claim.
Qed.

(** C2, amended: on every hourly tick where the usage fetch succeeds,
    [reset()] is invoked exactly when reporting does not throw, that is
    when no entry survives the filter (nothing is delivered) or the
    delivery to the metrics collector succeeds; when
    [collectServerUsageMetrics] rejects, [reset()] is not invoked. *)
Theorem reset_iff_report_not_rejected
    (toMetricsId : jsstring → option jsstring) (st : State) (w : World)
    (usage : list KeyUsage) :
  sharing st = true → getUsage w = inr usage →
  (Reset ∈ calls_since st (exec (hourly_callback toMetricsId) w st) ↔
   build_userReports toMetricsId usage = []
   ∨ collectServerUsageMetrics w = inr tt).
Proof.
  intros H Hfetch.
  rewrite (calls_of_hourly_fetched toMetricsId w st usage H Hfetch).
  unfold calls_after_fetch. cbn.
  destruct (build_userReports toMetricsId usage) as [|r rs].
  - split; [auto|]. intros _. set_solver.
  - destruct (collectServerUsageMetrics w) as [err|[]].
    + split.
      * intros Hin. unfold usage_failure in Hin.
        repeat (apply elem_of_cons in Hin as [Hin|Hin]; [discriminate Hin|]).
        inversion Hin.
      * intros [Hnil|Hok]; discriminate.
    + split; [auto|]. intros _. set_solver.
Qed.

Lemma reset_iff_report_not_rejected_witness :
  Reset ∈ calls_since (construct 0 sharing_config)
            (exec (hourly_callback Some) (world MS_PER_HOUR [us_entry] (inr tt))
               (construct 0 sharing_config))
  ↔ build_userReports Some [us_entry] = []
    ∨ collectServerUsageMetrics (world MS_PER_HOUR [us_entry] (inr tt)) = inr tt.
Proof.
  apply (reset_iff_report_not_rejected Some (construct 0 sharing_config)
           (world MS_PER_HOUR [us_entry] (inr tt)) [us_entry]).
  - reflexivity.
  - reflexivity.
Defined.

(** ** An hourly cycle with nothing to report *)

Lemma survives_false_cases k :
  inboundBytes k = 0
  ∨ (countries k ≠ [] ∧ Forall (λ c, c ∈ SANCTIONED_COUNTRIES) (countries k)) →
  survives k = false.
Proof.
  unfold survives. intros [Hzero|[Hne Hall]].
  - rewrite Hzero. reflexivity.
  - assert (Hs : hasSanctionedCountry (countries k) = true).
    { apply hasSanctionedCountry_true.
      destruct (countries k) as [|c cs]; [congruence|].
      apply Exists_cons_hd. inversion Hall; assumption. }
    rewrite Hs. apply andb_false_r.
Qed.

(** C7: a snapshot in which every entry has zero bytes or a (non-empty)
    country list whose countries are all sanctioned is one in which no
    entry survives the filter; and whenever no entry survives the filter,
    the hourly cycle makes no delivery call to the metrics collector,
    while the window cursor still advances to the clock reading of this
    cycle. *)
Theorem empty_report_is_not_delivered
    (toMetricsId : jsstring → option jsstring) (st : State) (w : World)
    (usage : list KeyUsage) :
  sharing st = true → getUsage w = inr usage →
  let st' := exec (hourly_callback toMetricsId) w st in
  (Forall (λ k, inboundBytes k = 0
                ∨ (countries k ≠ []
                   ∧ Forall (λ c, c ∈ SANCTIONED_COUNTRIES) (countries k)))
     usage →
   build_userReports toMetricsId usage = [])
  ∧ (build_userReports toMetricsId usage = [] →
     Forall (λ c, is_delivery c = false) (calls_since st st')
     ∧ reportStartTimestampMs st' = now w).
Proof.
  intros H Hfetch st'. split.
  - intros Hall. apply build_userReports_nil.
    eapply Forall_impl; [exact Hall|].
    intros k Hk. apply survives_false_cases, Hk.
  - intros Hnil. subst st'. split.
    + rewrite (calls_of_hourly_fetched toMetricsId w st usage H Hfetch).
      unfold calls_after_fetch. cbn. rewrite Hnil.
      repeat constructor.
    + unfold exec. rewrite (hourly_fetched toMetricsId w st usage H Hfetch).
      reflexivity.
Qed.

Lemma empty_report_is_not_delivered_witness :
  let st := construct 0 sharing_config in
  let w := world MS_PER_HOUR [idle_entry; kp_entry] (inr tt) in
  let st' := exec (hourly_callback Some) w st in
  build_userReports Some [idle_entry; kp_entry] = []
  ∧ Forall (λ c, is_delivery c = false) (calls_since st st')
  ∧ reportStartTimestampMs st' = now w.
Proof.
  intros st w st'.
  destruct (empty_report_is_not_delivered Some st w [idle_entry; kp_entry]
              eq_refl eq_refl) as [filtered quiet].
  assert (Hnil : build_userReports Some [idle_entry; kp_entry] = []).
  { apply filtered.
    constructor; [left; reflexivity|].
    constructor; [|constructor].
    right. split; [discriminate|].
    constructor; [|constructor].
    apply is_sanctioned_spec. reflexivity. }
  split; [exact Hnil|]. exact (quiet Hnil).
Defined.

(** ** Runs of the publisher *)

Section Runs.

Variable toMetricsId : jsstring → option jsstring.
Variable version : jsstring.

Local Abbreviation step' := (step toMetricsId version).
Local Abbreviation run' := (run toMetricsId version).

Lemma run_app st events events' :
  run' st (events ++ events') = run' (run' st events) events'.
Proof. unfold run. apply fold_left_app. Qed.

Lemma run_snoc st events ev :
  run' st (events ++ [ev]) = step' (run' st events) ev.
Proof. rewrite run_app. reflexivity. Qed.

Lemma built_reports_app calls calls' :
  built_reports (calls ++ calls') = built_reports calls ++ built_reports calls'.
Proof.
  induction calls as [|c calls IH]; [reflexivity|].
  destruct c; cbn; rewrite IH; reflexivity.
Qed.

Lemma built_reports_after_fetch w report :
  built_reports (calls_after_fetch w report) = [report].
Proof.
  unfold calls_after_fetch.
  destruct (userReports report); [reflexivity|].
  destruct (collectServerUsageMetrics w); reflexivity.
Qed.

Lemma built_reports_of_daily w report :
  built_reports (calls_of_daily w report) = [].
Proof.
  unfold calls_of_daily. destruct (collectFeatureMetrics w); reflexivity.
Qed.

(** One event either builds no report and leaves the cursor alone, or
    builds one report that starts at the cursor and moves the cursor to
    the report's end. *)
Lemma step_window st ev :
  (built_reports (trace (step' st ev)) = built_reports (trace st)
   ∧ reportStartTimestampMs (step' st ev) = reportStartTimestampMs st)
  ∨ ∃ r, built_reports (trace (step' st ev)) = built_reports (trace st) ++ [r]
         ∧ startUtcMs r = reportStartTimestampMs st
         ∧ reportStartTimestampMs (step' st ev) = endUtcMs r.
Proof.
  destruct ev as [| |w|w]; cbn.
  - left. rewrite built_reports_app. cbn. rewrite app_nil_r. auto.
  - left. rewrite built_reports_app. cbn. rewrite app_nil_r. auto.
  - unfold exec. destruct (sharing st) eqn:Hs.
    + destruct (getUsage w) as [err|usage] eqn:Hfetch.
      * rewrite (hourly_fetch_failed toMetricsId w st err Hs Hfetch). cbn.
        left. rewrite built_reports_app. cbn. rewrite app_nil_r. auto.
      * rewrite (hourly_fetched toMetricsId w st usage Hs Hfetch). cbn.
        right. eexists. rewrite built_reports_app, built_reports_after_fetch.
        split; [reflexivity|]. split; reflexivity.
    + rewrite (hourly_disabled toMetricsId w st Hs). auto.
  - unfold exec. destruct (sharing st) eqn:Hs.
    + rewrite (daily_enabled version w st Hs). cbn.
      left. rewrite built_reports_app, built_reports_of_daily, app_nil_r. auto.
    + rewrite (daily_disabled version w st Hs). auto.
Qed.

Lemma chained_snoc start reports cursor r :
  chained start reports cursor → startUtcMs r = cursor →
  chained start (reports ++ [r]) (endUtcMs r).
Proof.
  revert start. induction reports as [|r' reports IH]; intros start; cbn.
  - intros -> ->. auto.
  - intros [Hstart Hrest] Hr. split; [exact Hstart|]. apply IH; assumption.
Qed.

Lemma chained_adjacent start l1 r1 r2 l2 cursor :
  chained start (l1 ++ r1 :: r2 :: l2) cursor → startUtcMs r2 = endUtcMs r1.
Proof.
  revert start. induction l1 as [|r l1 IH]; intros start; cbn.
  - intros (_ & H & _). exact H.
  - intros [_ H]. exact (IH _ H).
Qed.

Lemma chained_last start l r cursor :
  chained start (l ++ [r]) cursor → cursor = endUtcMs r.
Proof.
  revert start. induction l as [|r' l IH]; intros start; cbn.
  - intros [_ H]. exact H.
  - intros [_ H]. exact (IH _ H).
Qed.

(** The invariant of the window cursor. *)
Lemma run_chained clockNow config events :
  let final := run' (construct clockNow config) events in
  chained clockNow (built_reports (trace final)) (reportStartTimestampMs final).
Proof.
  induction events as [|ev events IH] using rev_ind; [reflexivity|].
  cbn zeta in *. rewrite run_snoc.
  destruct (step_window (run' (construct clockNow config) events) ev)
    as [[-> ->]|(r & -> & Hstart & ->)]; [exact IH|].
  eapply chained_snoc; [exact IH | exact Hstart].
Qed.

(** While sharing is off, an event other than [startSharing()] keeps it
    off, a tick changes nothing at all, and the only call made is the
    write of the configuration. *)
Lemma step_not_sharing st ev :
  sharing st = false → ev ≠ StartSharing →
  sharing (step' st ev) = false
  ∧ (is_tick ev = true → step' st ev = st)
  ∧ ∃ extra, trace (step' st ev) = trace st ++ extra
             ∧ Forall (λ c, is_fetch_or_delivery c = false) extra.
Proof.
  intros Hs Hev. destruct ev as [| |w|w]; cbn.
  - congruence.
  - split; [reflexivity|]. split; [discriminate|].
    eexists. split; [reflexivity|]. repeat constructor.
  - unfold exec. rewrite (hourly_disabled toMetricsId w st Hs). cbn.
    split; [exact Hs|]. split; [reflexivity|].
    exists []. rewrite app_nil_r. split; [reflexivity | constructor].
  - unfold exec. rewrite (daily_disabled version w st Hs). cbn.
    split; [exact Hs|]. split; [reflexivity|].
    exists []. rewrite app_nil_r. split; [reflexivity | constructor].
Qed.

Lemma run_not_sharing st events :
  sharing st = false → StartSharing ∉ events →
  sharing (run' st events) = false
  ∧ Forall (λ c, is_fetch_or_delivery c = false) (calls_since st (run' st events)).
Proof.
  intros Hs Hstart.
  enough (H : sharing (run' st events) = false
              ∧ ∃ extra, trace (run' st events) = trace st ++ extra
                         ∧ Forall (λ c, is_fetch_or_delivery c = false) extra).
  { destruct H as (Hs' & extra & Htrace & Hextra). split; [exact Hs'|].
    rewrite (calls_since_app _ _ _ Htrace). exact Hextra. }
  induction events as [|ev events IH] using rev_ind.
  - split; [exact Hs|]. exists []. cbn. rewrite app_nil_r.
    split; [reflexivity | constructor].
  - rewrite run_snoc.
    destruct IH as (Hs' & extra & Htrace & Hextra); [set_solver|].
    destruct (step_not_sharing (run' st events) ev Hs')
      as (Hs'' & _ & extra' & Htrace' & Hextra'); [set_solver|].
    split; [exact Hs''|].
    exists (extra ++ extra'). rewrite Htrace', Htrace, app_assoc.
    split; [reflexivity|]. apply Forall_app. split; assumption.
Qed.

End Runs.

(** ** The opt-in gate *)

(** C10: with no [metricsEnabled] field in the persisted configuration,
    [isSharingEnabled()] returns the boolean [false], not [undefined]; a
    publisher constructed over such a configuration fetches and delivers
    nothing as long as [startSharing()] is not called, and after
    [startSharing()] it returns [true]. *)
Theorem sharing_disabled_by_default
    (toMetricsId : jsstring → option jsstring) (version : jsstring)
    (clockNow : Z) (config : ServerConfigJson) :
  metricsEnabled config = Undefined →
  let st := construct clockNow config in
  (∀ w, isSharingEnabled w st = (inr (Bool false), st))
  ∧ (∀ events, StartSharing ∉ events →
       Forall (λ c, is_fetch_or_delivery c = false)
         (calls_since st (run toMetricsId version st events)))
  ∧ (∀ w, isSharingEnabled w (startSharing st)
          = (inr (Bool true), startSharing st)).
Proof.
  intros Hundef st. split; [|split].
  - intros w. unfold isSharingEnabled, mbind, M_bind, serverConfig_data. cbn.
    rewrite Hundef. reflexivity.
  - intros events Hstart. apply run_not_sharing; [|exact Hstart].
    unfold sharing. cbn. rewrite Hundef. reflexivity.
  - intros w. reflexivity.
Qed.

Lemma sharing_disabled_by_default_witness :
  let st := construct 0 fresh_config in
  (∀ w, isSharingEnabled w st = (inr (Bool false), st))
  ∧ (∀ events, StartSharing ∉ events →
       Forall (λ c, is_fetch_or_delivery c = false)
         (calls_since st (run Some (lit "1.0.0") st events)))
  ∧ (∀ w, isSharingEnabled w (startSharing st)
          = (inr (Bool true), startSharing st)).
Proof.
  apply (sharing_disabled_by_default Some (lit "1.0.0") 0 fresh_config).
  reflexivity.
Defined.

(** ** The transport *)

Lemma scheme_state_some buffer rest scheme remaining :
  Url.scheme_state buffer rest = Some (scheme, remaining) →
  ∃ more, scheme = buffer ++ more.
Proof.
  revert buffer. induction rest as [|c rest IH]; intros buffer; cbn.
  - discriminate.
  - destruct (Url.is_scheme_unit c).
    + intros H. destruct (IH _ H) as [more ->].
      eexists. rewrite <- app_assoc. reflexivity.
    + destruct (c =? 58)%N; [|discriminate].
      intros [= <- _]. exists []. symmetry. apply app_nil_r.
Qed.

(** The [protocol] of a URL ends with a colon. *)
Lemma protocol_ends_with_colon parse_host input url :
  Url.new parse_host input = Some url →
  ∃ scheme, Url.protocol url = scheme ++ [58%N].
Proof.
  unfold Url.new.
  destruct (Url.scheme_start_state (Url.preprocess input)) as [[scheme remaining]|];
    [|discriminate].
  destruct (parse_host scheme remaining); [|discriminate].
  intros [= <-]. exists scheme. reflexivity.
Qed.

(** So the comparison with ['http'] is never true, and the module stays
    [https]. *)
Lemma select_module_of_parsed_url parse_host input url :
  Url.new parse_host input = Some url → Rest.select_module url = Rest.https.
Proof.
  intros H. destruct (protocol_ends_with_colon _ _ _ H) as [scheme Hp].
  unfold Rest.select_module. destruct (decide _) as [Heq|]; [|reflexivity].
  rewrite Hp in Heq. change (lit "http") with ([104; 116; 116]%N ++ [112%N]) in Heq.
  apply app_inj_tail in Heq as [_ Heq]. discriminate Heq.
Qed.

Lemma new_http_service :
  Url.new Url.plain_host http_service
  = Some (Url.mk (lit "http:") (lit "metrics.example.com")).
Proof. vm_compute. reflexivity. Qed.

Lemma new_https_service :
  Url.new Url.plain_host https_service
  = Some (Url.mk (lit "https:") (lit "metrics.example.com")).
Proof. vm_compute. reflexivity. Qed.

(** C4: the claim holds for HTTPS endpoints and fails for plain-HTTP
    ones.  For the service URL [http://metrics.example.com:8080], whose
    [protocol] is [http:], the request is made on the [https] module;
    the same module serves [https://metrics.example.com]. *)
Theorem http_endpoint_is_posted_over_https
    (urlPath reportJson : jsstring) (outcome : Rest.Outcome) :
  (Url.protocol <$> Url.new Url.plain_host http_service) = Some (lit "http:")
  ∧ (∃ message options,
        Rest.postMetrics Url.plain_host http_service urlPath reportJson outcome
        = inr ([Rest.LoggingInfo message; Rest.Request Rest.https options;
                Rest.Write (Json.utf8_encode reportJson); Rest.End_],
               Rest.settle outcome))
  ∧ (∃ message options,
        Rest.postMetrics Url.plain_host https_service urlPath reportJson outcome
        = inr ([Rest.LoggingInfo message; Rest.Request Rest.https options;
                Rest.Write (Json.utf8_encode reportJson); Rest.End_],
               Rest.settle outcome)).
Proof.
  split; [rewrite new_http_service; reflexivity|].
  unfold Rest.postMetrics. split.
  - rewrite new_http_service. cbv beta iota zeta.
    rewrite (select_module_of_parsed_url _ _ _ new_http_service).
    eexists _, _. reflexivity.
  - rewrite new_https_service. cbv beta iota zeta.
    rewrite (select_module_of_parsed_url _ _ _ new_https_service).
    eexists _, _. reflexivity.
Qed.

Lemma in_range_spec (statusCode : Z) :
  (200 <=? statusCode) && (statusCode <? 300)
  = bool_decide (200 ≤ statusCode < 300).
Proof.
  destruct (Z.leb_spec 200 statusCode), (Z.ltb_spec statusCode 300); cbn;
    symmetry; first [apply bool_decide_eq_true_2 | apply bool_decide_eq_false_2]; lia.
Qed.

(** C8: once the request is made, the promise resolves exactly when a
    response arrives with a status code in [200, 300); a response with
    any other status code rejects with an error whose message ends with
    that status code, an error event rejects with the underlying error,
    and exactly one request is made. *)
Theorem post_resolves_iff_2xx
    (parse_host : jsstring → jsstring → option jsstring)
    (serviceUrl urlPath reportJson : jsstring) (outcome : Rest.Outcome)
    (calls : list Rest.NetCall) (promise : Rest.Promise) :
  Rest.postMetrics parse_host serviceUrl urlPath reportJson outcome
  = inr (calls, promise) →
  (∃ requestModule options,
      List.filter is_request calls = [Rest.Request requestModule options])
  ∧ (promise = Rest.Resolved ↔
     ∃ statusCode, outcome = Rest.Response statusCode
                   ∧ 200 ≤ statusCode < 300)
  ∧ (∀ statusCode,
        outcome = Rest.Response statusCode → ¬ (200 ≤ statusCode < 300) →
        promise = Rest.Rejected
                    (Error (lit "metrics server request failed with status code "
                              ++ of_number statusCode)))
  ∧ (∀ e, outcome = Rest.RequestError e → promise = Rest.Rejected e).
Proof.
  unfold Rest.postMetrics.
  destruct (Url.new parse_host serviceUrl) as [url|]; [|discriminate].
  intros [= <- <-]. split; [eexists _, _; reflexivity|].
  split; [|split].
  - destruct outcome as [statusCode|e|]; cbn.
    + rewrite (in_range_spec statusCode).
      destruct (decide (200 ≤ statusCode < 300)) as [Hin|Hout].
      * rewrite bool_decide_eq_true_2 by exact Hin.
        split; [intros _; exists statusCode; auto | reflexivity].
      * rewrite bool_decide_eq_false_2 by exact Hout.
        split; [discriminate|]. intros (s & [= <-] & Hs). contradiction.
    + split; [discriminate|]. intros (s & Hs & _). discriminate Hs.
    + split; [discriminate|]. intros (s & Hs & _). discriminate Hs.
  - intros statusCode -> Hout. cbn. rewrite (in_range_spec statusCode).
    rewrite bool_decide_eq_false_2 by exact Hout. reflexivity.
  - intros e ->. reflexivity.
Qed.

Lemma post_resolves_iff_2xx_witness :
  Rest.postMetrics Url.plain_host https_service (lit "/connections") (lit "{}")
    (Rest.Response 503)
  = inr (sample_post_calls, Rest.Rejected status_503)
  ∧ (∃ requestModule options,
        List.filter is_request sample_post_calls
        = [Rest.Request requestModule options])
  ∧ Rest.Rejected status_503
    = Rest.Rejected
        (Error (lit "metrics server request failed with status code "
                  ++ of_number 503)).
Proof.
  assert (posted : Rest.postMetrics Url.plain_host https_service
                     (lit "/connections") (lit "{}") (Rest.Response 503)
                   = inr (sample_post_calls, Rest.Rejected status_503))
    by (vm_compute; reflexivity).
  destruct (post_resolves_iff_2xx _ _ _ _ _ _ _ posted)
    as (once & _ & rejected & _).
  split; [exact posted|]. split; [exact once|].
  apply (rejected 503 eq_refl). lia.
Defined.

(** An ASCII body has as many bytes as code units. *)
Lemma utf8_encode_ascii s :
  Forall (λ c, (c < 128)%N) s → Json.utf8_encode s = s.
Proof.
  induction 1 as [|c s Hc _ IH]; [reflexivity|]. cbn.
  assert (Hhigh : Json.is_high_surrogate c = false).
  { unfold Json.is_high_surrogate. apply andb_false_iff. left.
    apply N.leb_gt. lia. }
  assert (Hlow : Json.is_low_surrogate c = false).
  { unfold Json.is_low_surrogate. apply andb_false_iff. left.
    apply N.leb_gt. lia. }
  rewrite Hhigh, Hlow, IH. unfold Json.utf8_code_point.
  apply N.ltb_lt in Hc. rewrite Hc. reflexivity.
Qed.

Lemma content_length_of_ascii_body url urlPath reportJson :
  Forall (λ c, (c < 128)%N) reportJson →
  Rest.contentLength (Rest.headers (Rest.request_options url urlPath reportJson))
  = Json.byteLength reportJson.
Proof.
  intros H. unfold Json.byteLength. rewrite (utf8_encode_ascii _ H). reflexivity.
Qed.

(** C9: the request carries [Content-Type: application/json], but its
    [Content-Length] is the number of UTF-16 code units of the body.  For
    the hourly report of [reunion_entry] the header says 136 while 137
    bytes are written. *)
Theorem content_length_counts_code_units (outcome : Rest.Outcome) :
  ∃ message options bytes promise,
    Rest.collectServerUsageMetrics Url.plain_host https_service reunion_report outcome
    = inr ([Rest.LoggingInfo message; Rest.Request Rest.https options;
            Rest.Write bytes; Rest.End_], promise)
    ∧ Rest.contentType (Rest.headers options) = lit "application/json"
    ∧ Rest.contentLength (Rest.headers options) = 136
    ∧ bytes = Json.utf8_encode (stringify_serverReport reunion_report)
    ∧ Json.byteLength (stringify_serverReport reunion_report) = 137.
Proof.
  unfold Rest.collectServerUsageMetrics, Rest.postMetrics.
  rewrite new_https_service. cbv beta iota zeta.
  rewrite (select_module_of_parsed_url _ _ _ new_https_service).
  eexists _, _, _, _. split; [reflexivity|].
  split; [reflexivity|]. split; [vm_compute; reflexivity|].
  split; [reflexivity|]. vm_compute. reflexivity.
Qed.

(** * Further properties *)

(** ** The usage source *)

Section UsageSource.

Import Prometheus.

Lemma split_comma_not_nil s : split_comma s ≠ [].
Proof.
  destruct s as [|c rest]; cbn; [discriminate|].
  destruct (c =? 44)%N; [discriminate|].
  destruct (split_comma rest); discriminate.
Qed.

Lemma join_cons_not_nil part parts :
  parts ≠ [] → Json.join (part :: parts) = part ++ 44%N :: Json.join parts.
Proof. destruct parts; [congruence | reflexivity]. Qed.

Lemma split_comma_free part :
  44%N ∉ part → split_comma part = [part].
Proof.
  induction part as [|c part IH]; intros Hfree; cbn; [reflexivity|].
  destruct (N.eqb_spec c 44) as [->|_]; [set_solver|].
  rewrite IH by set_solver. reflexivity.
Qed.

Lemma split_comma_app part s :
  44%N ∉ part → split_comma (part ++ 44%N :: s) = part :: split_comma s.
Proof.
  induction part as [|c part IH]; intros Hfree; cbn; [reflexivity|].
  destruct (N.eqb_spec c 44) as [->|_]; [set_solver|].
  rewrite IH by set_solver. reflexivity.
Qed.

Lemma split_comma_parts_free s : Forall (λ part, 44%N ∉ part) (split_comma s).
Proof.
  induction s as [|c rest IH]; cbn.
  - constructor; [set_solver | constructor].
  - destruct (N.eqb_spec c 44) as [->|Hc].
    + constructor; [set_solver | exact IH].
    + destruct (split_comma rest) as [|part parts].
      * constructor; [|constructor]. intros Hin.
        apply list_elem_of_singleton in Hin. congruence.
      * apply Forall_cons in IH as [Hpart Hparts].
        constructor; [|exact Hparts]. intros Hin.
        apply elem_of_cons in Hin as [Hin|Hin]; [congruence | contradiction].
Qed.

(** Splitting loses nothing: the parts joined with commas are the label. *)
Lemma join_split_comma s : Json.join (split_comma s) = s.
Proof.
  induction s as [|c rest IH]; cbn; [reflexivity|].
  destruct (N.eqb_spec c 44) as [->|_].
  - rewrite join_cons_not_nil by apply split_comma_not_nil.
    rewrite IH. reflexivity.
  - pose proof (split_comma_not_nil rest) as Hne.
    destruct (split_comma rest) as [|part parts]; [congruence|].
    destruct parts as [|part' parts].
    + cbn in *. rewrite IH. reflexivity.
    + rewrite join_cons_not_nil in * by discriminate.
      rewrite <- IH. reflexivity.
Qed.

Lemma split_comma_join parts :
  parts ≠ [] → Forall (λ part, 44%N ∉ part) parts →
  split_comma (Json.join parts) = parts.
Proof.
  induction parts as [|part parts IH]; intros Hne Hfree; [congruence|].
  apply Forall_cons in Hfree as [Hpart Hparts].
  destruct parts as [|part' parts].
  - cbn. apply split_comma_free, Hpart.
  - rewrite join_cons_not_nil by discriminate.
    rewrite split_comma_app by exact Hpart.
    rewrite IH; [reflexivity | discriminate | exact Hparts].
Qed.

Lemma trimStart_clean s : starts_clean (trimStart s).
Proof.
  induction s as [|c s IH]; cbn; [exact I|].
  destruct (is_white_space c) eqn:Hc; [exact IH | exact Hc].
Qed.

Lemma trimStart_id s : starts_clean s → trimStart s = s.
Proof. destruct s as [|c s]; cbn; [reflexivity|]. intros ->. reflexivity. Qed.

Lemma trimStart_snoc s c :
  is_white_space c = false → ∃ s', trimStart (s ++ [c]) = s' ++ [c].
Proof.
  intros Hc. induction s as [|d s IH]; cbn.
  - rewrite Hc. exists []. reflexivity.
  - destruct (is_white_space d); [exact IH|]. exists (d :: s). reflexivity.
Qed.

Lemma trimEnd_clean s : starts_clean s → starts_clean (rev (trimStart (rev s))).
Proof.
  destruct s as [|c s]; [intros _; exact I|]. cbn [starts_clean rev]. intros Hc.
  destruct (trimStart_snoc (rev s) c Hc) as [s' ->].
  rewrite rev_app_distr. exact Hc.
Qed.

(** A trimmed string has no white space left to trim. *)
Lemma trim_trim s : trim (trim s) = trim s.
Proof.
  unfold trim at 1.
  assert (Hstart : trimStart (trim s) = trim s).
  { apply trimStart_id. unfold trim. apply trimEnd_clean, trimStart_clean. }
  rewrite Hstart. unfold trim. rewrite rev_involutive.
  rewrite (trimStart_id (trimStart _)) by apply trimStart_clean.
  reflexivity.
Qed.

Lemma trimStart_suffix s : ∀ c, c ∈ trimStart s → c ∈ s.
Proof.
  induction s as [|d s IH]; cbn; [auto|]. intros c.
  destruct (is_white_space d); [|auto]. intros Hc. right. apply IH, Hc.
Qed.

Lemma trim_sub s c : c ∈ trim s → c ∈ s.
Proof.
  unfold trim. rewrite list_elem_of_In, <- in_rev, <- list_elem_of_In. intros Hc.
  apply trimStart_suffix in Hc.
  rewrite list_elem_of_In, <- in_rev, <- list_elem_of_In in Hc.
  apply trimStart_suffix, Hc.
Qed.

Lemma trim_clean_ends s :
  starts_clean s → starts_clean (rev s) → trim s = s.
Proof.
  intros Hs Hr. unfold trim. rewrite (trimStart_id s Hs), (trimStart_id _ Hr).
  apply rev_involutive.
Qed.

Lemma starts_clean_no_white_space s :
  Forall (λ c, is_white_space c = false) s → starts_clean s.
Proof. destruct 1; [exact I | assumption]. Qed.

Lemma trim_no_white_space s :
  Forall (λ c, is_white_space c = false) s → trim s = s.
Proof.
  intros H. apply trim_clean_ends; apply starts_clean_no_white_space;
    [exact H|]. apply Forall_forall. intros c Hc.
  rewrite Forall_forall in H. apply H.
  rewrite list_elem_of_In in *. apply in_rev, Hc.
Qed.

Lemma split_comma_sub s part c :
  part ∈ split_comma s → c ∈ part → c ∈ s.
Proof.
  revert part. induction s as [|d rest IH]; cbn; intros part Hpart Hc.
  - apply list_elem_of_singleton in Hpart as ->. exact Hc.
  - destruct (d =? 44)%N.
    + apply elem_of_cons in Hpart as [->|Hpart]; [inversion Hc|].
      right. exact (IH part Hpart Hc).
    + destruct (split_comma rest) as [|first parts].
      * apply list_elem_of_singleton in Hpart as ->.
        apply list_elem_of_singleton in Hc as ->. left.
      * apply elem_of_cons in Hpart as [->|Hpart].
        -- apply elem_of_cons in Hc as [->|Hc]; [left | right].
           apply (IH first); [left | exact Hc].
        -- right. apply (IH part); [right; exact Hpart | exact Hc].
Qed.


Section Samples.

Variable round_parseFloat : jsstring → Z.

Lemma fold_push_usage result : ∀ usage,
  fold_left (push_usage round_parseFloat) result usage
  = usage ++ List.map (usage_of_sample round_parseFloat) result.
Proof.
  induction result as [|entry result IH]; intros usage; cbn.
  - symmetry. apply app_nil_r.
  - rewrite IH. unfold push_usage. rewrite <- app_assoc. reflexivity.
Qed.

Lemma getUsage_answered resetTimeMs dateNow query result :
  query (query_text (round_thousandth (dateNow - resetTimeMs))) = inr result →
  snd (getUsage round_parseFloat resetTimeMs dateNow query)
  = inr (List.map (usage_of_sample round_parseFloat) result).
Proof.
  intros H. unfold getUsage. cbn. rewrite H. rewrite fold_push_usage. reflexivity.
Qed.

End Samples.

End UsageSource.

(** X1: for a location label made of comma-free parts joined with
    commas, the country list is the list of the parts, each trimmed, in
    the same order: white space around a country code does not count. *)
Theorem countries_of_joined_labels (parts : list jsstring) :
  parts ≠ [] → Forall (λ part, 44%N ∉ part) parts → Json.join parts ≠ [] →
  Prometheus.countries_of (Json.join parts) = List.map Prometheus.trim parts.
Proof.
  intros Hne Hfree Hjoin. unfold Prometheus.countries_of.
  destruct (Json.join parts) as [|c rest] eqn:Heq; [congruence|].
  rewrite <- Heq, split_comma_join by assumption. reflexivity.
Qed.

Lemma countries_of_joined_labels_witness :
  Prometheus.countries_of (Json.join [lit " US "; lit "KP"])
  = List.map Prometheus.trim [lit " US "; lit "KP"].
Proof.
  apply (countries_of_joined_labels [lit " US "; lit "KP"]).
  - discriminate.
  - constructor; [|constructor; [|constructor]]; vm_compute; intros H;
      repeat (apply elem_of_cons in H as [H|H]; [discriminate H|]); inversion H.
  - vm_compute. discriminate.
Defined.

(** X2: no country of a country list contains a comma, and none has
    white space at either end. *)
Theorem countries_are_trimmed (countriesStr country : jsstring) :
  country ∈ Prometheus.countries_of countriesStr →
  (44%N ∉ country) ∧ Prometheus.trim country = country.
Proof.
  unfold Prometheus.countries_of.
  destruct countriesStr as [|c rest]; [inversion 1|].
  rewrite list_elem_of_In, in_map_iff. intros (part & <- & Hpart).
  split; [|apply trim_trim].
  intros Hcomma. apply trim_sub in Hcomma.
  pose proof (split_comma_parts_free (c :: rest)) as Hfree.
  rewrite Forall_forall in Hfree. apply (Hfree part); [|exact Hcomma].
  apply list_elem_of_In, Hpart.
Qed.

Lemma countries_are_trimmed_witness :
  (44%N ∉ lit "KP") ∧ Prometheus.trim (lit "KP") = lit "KP".
Proof.
  apply (countries_are_trimmed (lit "US , KP ") (lit "KP")).
  vm_compute. right. left.
Defined.


(** X4: for a label without white space, the countries joined with
    commas are the label again. *)
Theorem countries_join_round_trip (countriesStr : jsstring) :
  Forall (λ c, Prometheus.is_white_space c = false) countriesStr →
  Json.join (Prometheus.countries_of countriesStr) = countriesStr.
Proof.
  intros Hclean. unfold Prometheus.countries_of.
  destruct countriesStr as [|c rest] eqn:Heq; [reflexivity|]. rewrite <- Heq in *.
  rewrite <- (join_split_comma countriesStr) at 2. f_equal.
  rewrite <- (map_id (Prometheus.split_comma countriesStr)) at 2.
  apply map_ext_in. intros part Hpart. apply trim_no_white_space.
  apply Forall_forall. intros d Hd.
  rewrite Forall_forall in Hclean. apply Hclean.
  apply (split_comma_sub _ part); [apply list_elem_of_In, Hpart | exact Hd].
Qed.

Lemma countries_join_round_trip_witness :
  Json.join (Prometheus.countries_of (lit "US,,KP,")) = lit "US,,KP,".
Proof.
  apply (countries_join_round_trip (lit "US,,KP,")).
  repeat constructor.
Defined.

(** X5: the window of the query reaches back to the last reset: its
    length in seconds is within half a second of the time elapsed since
    [resetTimeMs], it is not negative when the clock has not gone back,
    and a query made at the instant of [reset()] has a window of zero
    seconds. *)
Theorem query_window_tracks_reset
    (round_parseFloat : jsstring → Z) (resetTimeMs dateNow : Z)
    (query : jsstring → error + list Prometheus.Sample) :
  let secs := Prometheus.round_thousandth (dateNow - resetTimeMs) in
  fst (Prometheus.getUsage round_parseFloat resetTimeMs dateNow query)
  = Prometheus.query_text secs
  ∧ dateNow - resetTimeMs - 500 < 1000 * secs ≤ dateNow - resetTimeMs + 500
  ∧ (resetTimeMs ≤ dateNow → 0 ≤ secs)
  ∧ fst (Prometheus.getUsage round_parseFloat (Prometheus.reset dateNow) dateNow query)
    = Prometheus.query_text 0.
Proof.
  cbn zeta. unfold Prometheus.round_thousandth, Prometheus.reset.
  split; [reflexivity|]. split; [|split].
  - pose proof (Z.div_mod (dateNow - resetTimeMs + 500) 1000 ltac:(lia)).
    pose proof (Z.mod_pos_bound (dateNow - resetTimeMs + 500) 1000 ltac:(lia)).
    lia.
  - intros Hle. apply Z.div_pos; lia.
  - cbn. rewrite Z.sub_diag. reflexivity.
Qed.

Lemma query_window_tracks_reset_witness :
  0 ≤ Prometheus.round_thousandth (3601499 - 1000).
Proof.
  destruct (query_window_tracks_reset (λ _, 0) 1000 3601499 (λ _, inr []))
    as (_ & _ & positive & _).
  apply positive. lia.
Defined.

(** X6: when the query is answered, [getUsage] gives one usage entry
    per sample, at the same position; a sample without [access_key]
    label gets the empty id and a sample without [location] label gets
    the empty country list.  When the query fails, [getUsage] fails
    with the same error. *)
Theorem samples_become_usage
    (round_parseFloat : jsstring → Z) (resetTimeMs dateNow : Z)
    (query : jsstring → error + list Prometheus.Sample) :
  match query (Prometheus.query_text
                 (Prometheus.round_thousandth (dateNow - resetTimeMs))) with
  | inl err =>
      snd (Prometheus.getUsage round_parseFloat resetTimeMs dateNow query) = inl err
  | inr result =>
      ∃ usage,
        snd (Prometheus.getUsage round_parseFloat resetTimeMs dateNow query)
        = inr usage
        ∧ length usage = length result
        ∧ ∀ (i : nat) (entry : Prometheus.Sample),
            result !! i = Some entry →
            ∃ k, usage !! i = Some k
                 ∧ inboundBytes k = round_parseFloat (Prometheus.value_1 entry)
                 ∧ (Prometheus.metric entry !! lit "access_key" = None →
                    accessKeyId k = [])
                 ∧ (Prometheus.metric entry !! lit "location" = None →
                    countries k = [])
  end.
Proof.
  destruct (query _) as [err|result] eqn:Hq.
  - unfold Prometheus.getUsage. cbn. rewrite Hq. reflexivity.
  - exists (List.map (usage_of_sample round_parseFloat) result).
    split; [apply getUsage_answered, Hq|].
    split; [apply length_map|].
    intros i entry Hi. exists (usage_of_sample round_parseFloat entry).
    split; [|split; [reflexivity|split]].
    + change (List.map (usage_of_sample round_parseFloat) result)
        with (usage_of_sample round_parseFloat <$> result).
      rewrite list_lookup_fmap, Hi. reflexivity.
    + intros Hnone. cbn. rewrite Hnone. reflexivity.
    + intros Hnone. cbn. rewrite Hnone. reflexivity.
Qed.

Lemma samples_become_usage_witness :
  ∃ usage,
    snd (Prometheus.getUsage (λ _, 7) 0 3600000
           (λ _, inr [Prometheus.mkSample ∅ (lit "7.2")]))
    = inr usage
    ∧ length usage = 1%nat
    ∧ ∀ (i : nat) (entry : Prometheus.Sample),
        [Prometheus.mkSample ∅ (lit "7.2")] !! i = Some entry →
        ∃ k, usage !! i = Some k
             ∧ inboundBytes k = 7
             ∧ (Prometheus.metric entry !! lit "access_key" = None →
                accessKeyId k = [])
             ∧ (Prometheus.metric entry !! lit "location" = None →
                countries k = []).
Proof.
  exact (samples_become_usage (λ _, 7) 0 3600000
           (λ _, inr [Prometheus.mkSample ∅ (lit "7.2")])).
Defined.

(** X7: a sample whose location label has, between its commas, a
    sanctioned country code (with or without white space around it) is
    not in the hourly report built from the usage that [getUsage]
    returns, whatever else the label lists. *)
Theorem sanctioned_location_is_not_reported
    (round_parseFloat : jsstring → Z)
    (toMetricsId : jsstring → option jsstring)
    (result : list Prometheus.Sample) (entry : Prometheus.Sample)
    (location : jsstring) :
  Prometheus.metric entry !! lit "location" = Some location →
  Exists (λ part, Prometheus.trim part ∈ SANCTIONED_COUNTRIES)
    (Prometheus.split_comma location) →
  user_report toMetricsId (usage_of_sample round_parseFloat entry)
  ∉ build_userReports toMetricsId
      (List.map (usage_of_sample round_parseFloat) result).
Proof.
  intros Hloc Hsanctioned Hin.
  apply elem_of_build_userReports in Hin as (k & _ & Hs & Heq).
  apply (f_equal userCountries) in Heq. cbn in Heq.
  unfold survives in Hs. apply andb_true_iff in Hs as [_ Hs].
  apply negb_true_iff in Hs. rewrite <- Heq, Hloc in Hs.
  apply not_true_iff_false in Hs. apply Hs.
  apply hasSanctionedCountry_true.
  destruct location as [|c rest] eqn:Hlocation.
  - exfalso. cbn in Hsanctioned. apply Exists_cons in Hsanctioned as [H|H].
    + vm_compute in H. discriminate H.
    + inversion H.
  - cbn [or_string Prometheus.countries_of].
    apply Exists_exists in Hsanctioned as (part & Hpart & Hs').
    apply Exists_exists. exists (Prometheus.trim part). split; [|exact Hs'].
    apply list_elem_of_In, in_map, list_elem_of_In, Hpart.
Qed.

(** ** The publisher over whole runs *)

Section MoreRuns.

Variable toMetricsId : jsstring → option jsstring.
Variable version : jsstring.

Local Abbreviation step' := (step toMetricsId version).
Local Abbreviation run' := (run toMetricsId version).

Lemma delivered_reports_app calls calls' :
  delivered_reports (calls ++ calls')
  = delivered_reports calls ++ delivered_reports calls'.
Proof.
  induction calls as [|c calls IH]; [reflexivity|].
  destruct c; cbn; rewrite IH; reflexivity.
Qed.

Lemma config_writes_app calls calls' :
  config_writes (calls ++ calls') = config_writes calls ++ config_writes calls'.
Proof.
  induction calls as [|c calls IH]; [reflexivity|].
  destruct c; cbn; rewrite IH; reflexivity.
Qed.

Lemma build_userReports_clean usage :
  Forall (λ u, bytesTransferred u ≠ 0
               ∧ Forall (λ c, c ∉ SANCTIONED_COUNTRIES) (userCountries u))
    (build_userReports toMetricsId usage).
Proof.
  apply Forall_forall. intros u Hu.
  apply elem_of_build_userReports in Hu as (k & _ & Hs & ->). cbn.
  unfold survives in Hs. apply andb_true_iff in Hs as [Hbytes Hcountries].
  apply negb_true_iff in Hbytes, Hcountries. split.
  - apply Z.eqb_neq, Hbytes.
  - apply hasSanctionedCountry_false, Hcountries.
Qed.

(** What one event adds to the trace, and what it does to the fields. *)
Lemma step_effect st ev :
  ∃ extra,
    trace (step' st ev) = trace st ++ extra
    ∧ configServerId (serverConfig (step' st ev)) = configServerId (serverConfig st)
    ∧ accessKeyDataLimit (serverConfig (step' st ev))
      = accessKeyDataLimit (serverConfig st)
    ∧ metricsEnabled (serverConfig (step' st ev))
      = toggle (metricsEnabled (serverConfig st)) ev
    ∧ Forall (clean_report (configServerId (serverConfig st)))
        (delivered_reports extra)
    ∧ delivered_reports extra `sublist_of` built_reports extra
    ∧ match config_writes extra with
      | [] => serverConfig (step' st ev) = serverConfig st
      | data :: more => more = [] ∧ data = serverConfig (step' st ev)
      end.
Proof.
  destruct ev as [| |w|w]; cbn [step toggle].
  - eexists. split; [reflexivity|]. cbn.
    split_and!; first [reflexivity | by repeat constructor].
  - eexists. split; [reflexivity|]. cbn.
    split_and!; first [reflexivity | by repeat constructor].
  - unfold exec. destruct (sharing st) eqn:Hs.
    + destruct (getUsage w) as [err|usage] eqn:Hfetch.
      * rewrite (hourly_fetch_failed toMetricsId w st err Hs Hfetch). cbn.
        eexists. split; [reflexivity|]. cbn.
        split_and!; first [reflexivity | by repeat constructor].
      * rewrite (hourly_fetched toMetricsId w st usage Hs Hfetch). cbn.
        eexists. split; [reflexivity|].
        do 3 (split; [reflexivity|]).
        unfold calls_after_fetch. cbn.
        destruct (build_userReports toMetricsId usage) as [|u us] eqn:Hreports; cbn.
        -- split_and!; first [reflexivity | by repeat constructor].
        -- assert (Hclean : clean_report (configServerId (serverConfig st))
                     (build_report toMetricsId (serverConfig st)
                        (reportStartTimestampMs st) (now w) usage)).
           { split; [reflexivity|]. cbn. rewrite Hreports.
             split; [discriminate|]. rewrite <- Hreports.
             apply build_userReports_clean. }
           destruct (collectServerUsageMetrics w) as [err|[]]; cbn.
           all: split_and!;
             [constructor; [exact Hclean | constructor]
             |apply sublist_skip; reflexivity
             |reflexivity].
    + rewrite (hourly_disabled toMetricsId w st Hs). exists []. cbn.
      rewrite app_nil_r.
      split_and!; first [reflexivity | by repeat constructor].
  - unfold exec. destruct (sharing st) eqn:Hs.
    + rewrite (daily_enabled version w st Hs). cbn.
      eexists. split; [reflexivity|].
      do 3 (split; [reflexivity|]).
      unfold calls_of_daily. cbn.
      destruct (collectFeatureMetrics w) as [err|[]]; cbn.
      all: split_and!; first [reflexivity | by repeat constructor].
    + rewrite (daily_disabled version w st Hs). exists []. cbn.
      rewrite app_nil_r.
      split_and!; first [reflexivity | by repeat constructor].
Qed.

Lemma run_effect st events :
  ∃ extra,
    trace (run' st events) = trace st ++ extra
    ∧ configServerId (serverConfig (run' st events)) = configServerId (serverConfig st)
    ∧ accessKeyDataLimit (serverConfig (run' st events))
      = accessKeyDataLimit (serverConfig st)
    ∧ metricsEnabled (serverConfig (run' st events))
      = fold_left toggle events (metricsEnabled (serverConfig st))
    ∧ Forall (clean_report (configServerId (serverConfig st)))
        (delivered_reports extra)
    ∧ delivered_reports extra `sublist_of` built_reports extra
    ∧ match last (config_writes extra) with
      | None => serverConfig (run' st events) = serverConfig st
      | Some data => data = serverConfig (run' st events)
      end.
Proof.
  induction events as [|ev events IH] using rev_ind.
  - exists []. cbn. rewrite app_nil_r.
    split_and!; first [reflexivity | by repeat constructor].
  - destruct IH as (extra & Htrace & Hid & Hlimit & Hflag & Hclean & Hsub & Hwrite).
    rewrite (run_snoc toMetricsId version).
    destruct (step_effect (run' st events) ev)
      as (extra' & Htrace' & Hid' & Hlimit' & Hflag' & Hclean' & Hsub' & Hwrite').
    exists (extra ++ extra').
    split; [rewrite Htrace', Htrace, app_assoc; reflexivity|].
    split; [congruence|]. split; [congruence|].
    split; [rewrite fold_left_app; cbn; congruence|].
    rewrite delivered_reports_app, built_reports_app, config_writes_app.
    split; [apply Forall_app; split; [exact Hclean | rewrite <- Hid; exact Hclean']|].
    split; [apply sublist_app; assumption|].
    destruct (config_writes extra') as [|data more].
    + rewrite app_nil_r. rewrite Hwrite'.
      destruct (last (config_writes extra)); assumption.
    + destruct Hwrite' as [-> ->]. rewrite last_snoc. reflexivity.
Qed.

(** A tick reads the clock at most once; a report built during it ends
    at that reading. *)
Lemma step_clock st ev t rest :
  reportStartTimestampMs st ≤ t → clock_monotone t (ev :: rest) →
  ∃ t' new,
    reportStartTimestampMs (step' st ev) ≤ t'
    ∧ clock_monotone t' rest
    ∧ built_reports (trace (step' st ev)) = built_reports (trace st) ++ new
    ∧ Forall (λ r, startUtcMs r ≤ endUtcMs r) new.
Proof.
  intros Hcursor Hclock. destruct ev as [| |w|w]; cbn in Hclock; cbn [step].
  - exists t, []. cbn. rewrite built_reports_app. cbn.
    split_and!; first [assumption | reflexivity | constructor].
  - exists t, []. cbn. rewrite built_reports_app. cbn.
    split_and!; first [assumption | reflexivity | constructor].
  - destruct Hclock as [Hle Hrest]. unfold exec. destruct (sharing st) eqn:Hs.
    + destruct (getUsage w) as [err|usage] eqn:Hfetch.
      * rewrite (hourly_fetch_failed toMetricsId w st err Hs Hfetch). cbn.
        exists (now w), []. rewrite built_reports_app. cbn.
        split_and!; first [assumption | reflexivity | constructor | lia].
      * rewrite (hourly_fetched toMetricsId w st usage Hs Hfetch). cbn.
        exists (now w), [build_report toMetricsId (serverConfig st)
                           (reportStartTimestampMs st) (now w) usage].
        rewrite built_reports_app, (built_reports_after_fetch w).
        split_and!; try first [assumption | reflexivity | lia].
        constructor; [cbn; lia | constructor].
    + rewrite (hourly_disabled toMetricsId w st Hs). cbn.
      exists (now w), []. rewrite app_nil_r.
      split_and!; first [assumption | reflexivity | constructor | lia].
  - destruct Hclock as [Hle Hrest]. unfold exec. destruct (sharing st) eqn:Hs.
    + rewrite (daily_enabled version w st Hs). cbn.
      exists (now w), []. rewrite built_reports_app, built_reports_of_daily.
      split_and!; first [assumption | reflexivity | constructor | lia].
    + rewrite (daily_disabled version w st Hs). cbn.
      exists (now w), []. rewrite app_nil_r.
      split_and!; first [assumption | reflexivity | constructor | lia].
Qed.

Lemma run_clock events : ∀ st t,
  reportStartTimestampMs st ≤ t → clock_monotone t events →
  Forall (λ r, startUtcMs r ≤ endUtcMs r) (built_reports (trace st)) →
  Forall (λ r, startUtcMs r ≤ endUtcMs r)
    (built_reports (trace (run' st events))).
Proof.
  induction events as [|ev events IH]; intros st t Hcursor Hclock Hbuilt;
    [exact Hbuilt|].
  destruct (step_clock st ev t events Hcursor Hclock)
    as (t' & new & Hcursor' & Hclock' & Hbuilt' & Hnew).
  cbn. apply (IH _ t' Hcursor' Hclock').
  rewrite Hbuilt'. apply Forall_app. split; assumption.
Qed.

Lemma sublist_map_filter {A B : Type} (f : A → B) (p : A → bool) (l : list A) :
  List.map f (List.filter p l) `sublist_of` List.map f l.
Proof.
  induction l as [|x l IH]; cbn; [constructor|].
  destruct (p x); cbn; [apply sublist_skip | apply sublist_cons]; exact IH.
Qed.

End MoreRuns.

(** X8: in any run of a publisher, every report handed to the metrics
    collector carries the configured server id, has at least one user
    report, and has no user report with zero bytes or with a sanctioned
    country; and the reports delivered are, in order, among the reports
    built, each at most once. *)
Theorem delivered_reports_are_clean
    (toMetricsId : jsstring → option jsstring) (version : jsstring)
    (clockNow : Z) (config : ServerConfigJson) (events : list Event) :
  let final := run toMetricsId version (construct clockNow config) events in
  Forall (clean_report (configServerId config)) (delivered_reports (trace final))
  ∧ delivered_reports (trace final) `sublist_of` built_reports (trace final).
Proof.
  cbn zeta.
  destruct (run_effect toMetricsId version (construct clockNow config) events)
    as (extra & -> & _ & _ & _ & Hclean & Hsub & _).
  rewrite delivered_reports_app, built_reports_app. cbn. auto.
Qed.

(** X9: after any sequence of method calls and timer ticks,
    [isSharingEnabled()] returns what the last [startSharing()] or
    [stopSharing()] set (or the truth value of the initial flag when
    neither was called); the timer callbacks never change the flag, and
    nothing changes the server id or the data limit of the
    configuration. *)
Theorem last_call_decides_sharing
    (toMetricsId : jsstring → option jsstring) (version : jsstring)
    (st : State) (events : list Event) (w : World) :
  let final := run toMetricsId version st events in
  let flag := fold_left toggle events (metricsEnabled (serverConfig st)) in
  isSharingEnabled w final = (inr (Bool (truthy flag)), final)
  ∧ configServerId (serverConfig final) = configServerId (serverConfig st)
  ∧ accessKeyDataLimit (serverConfig final) = accessKeyDataLimit (serverConfig st).
Proof.
  cbn zeta.
  destruct (run_effect toMetricsId version st events)
    as (extra & _ & Hid & Hlimit & Hflag & _).
  split; [|split; assumption].
  unfold isSharingEnabled, mbind, M_bind, serverConfig_data, mret, M_ret.
  rewrite Hflag.
  destruct (fold_left toggle events (metricsEnabled (serverConfig st))) as [|[|]];
    reflexivity.
Qed.

(** X10: the configuration written last during a run is the
    configuration in memory at its end; when nothing was written, the
    configuration in memory is the one the run started with. *)
Theorem written_configuration_is_current
    (toMetricsId : jsstring → option jsstring) (version : jsstring)
    (st : State) (events : list Event) :
  let final := run toMetricsId version st events in
  match last (config_writes (calls_since st final)) with
  | Some data => data = serverConfig final
  | None => serverConfig final = serverConfig st
  end.
Proof.
  cbn zeta.
  destruct (run_effect toMetricsId version st events)
    as (extra & Htrace & _ & _ & _ & _ & _ & Hwrite).
  rewrite (calls_since_app _ _ _ Htrace). exact Hwrite.
Qed.

(** X11: when the clock never goes backwards, every report built in a
    run has [startUtcMs <= endUtcMs]. *)
Theorem report_windows_are_ordered
    (toMetricsId : jsstring → option jsstring) (version : jsstring)
    (clockNow : Z) (config : ServerConfigJson) (events : list Event) :
  clock_monotone clockNow events →
  Forall (λ r, startUtcMs r ≤ endUtcMs r)
    (built_reports
       (trace (run toMetricsId version (construct clockNow config) events))).
Proof.
  intros Hclock.
  apply (run_clock toMetricsId version events _ clockNow);
    [reflexivity | exact Hclock | constructor].
Qed.

Lemma report_windows_are_ordered_witness :
  Forall (λ r, startUtcMs r ≤ endUtcMs r)
    (built_reports
       (trace (run Some (lit "1.0.0") (construct 0 sharing_config) three_hours))).
Proof.
  apply (report_windows_are_ordered Some (lit "1.0.0") 0 sharing_config three_hours).
  cbn. lia.
Defined.

(** X12: no error escapes a timer callback: whatever the usage source
    and the collector answer, and whether sharing is on or off, both
    callbacks return normally. *)
Theorem callbacks_never_throw
    (toMetricsId : jsstring → option jsstring) (version : jsstring)
    (w : World) (st : State) :
  fst (hourly_callback toMetricsId w st) = inr tt
  ∧ fst (daily_callback version w st) = inr tt.
Proof.
  destruct (sharing st) eqn:Hs.
  - split.
    + destruct (getUsage w) as [err|usage] eqn:Hfetch.
      * rewrite (hourly_fetch_failed toMetricsId w st err Hs Hfetch). reflexivity.
      * rewrite (hourly_fetched toMetricsId w st usage Hs Hfetch). reflexivity.
    + rewrite (daily_enabled version w st Hs). reflexivity.
  - rewrite (hourly_disabled toMetricsId w st Hs), (daily_disabled version w st Hs).
    split; reflexivity.
Qed.

(** X13: a daily tick with sharing off makes no call at all; with
    sharing on it reads the clock, delivers exactly one feature report,
    stamped with that reading, whose [dataLimit.enabled] tells whether
    the configuration has an [accessKeyDataLimit], and logs one error
    when that delivery is rejected, and makes no other call.  Either way
    it never calls the usage source, never delivers a usage report, and
    leaves the window cursor and the configuration as they are. *)
Theorem daily_tick_only_reports_features
    (version : jsstring) (w : World) (st : State) :
  let st' := exec (daily_callback version) w st in
  let report :=
    {| featureServerId := configServerId (serverConfig st);
       serverVersion := version;
       timestampUtcMs := now w;
       dataLimit :=
         {| enabled := bool_decide (accessKeyDataLimit (serverConfig st) ≠ None) |} |} in
  reportStartTimestampMs st' = reportStartTimestampMs st
  ∧ serverConfig st' = serverConfig st
  ∧ calls_since st st'
    = (if sharing st then
         [ClockNow; CollectFeatureMetrics report]
         ++ match collectFeatureMetrics w with
            | inr _ => []
            | inl err =>
                [ConsoleError (lit "Failed to report feature metrics: "
                                 ++ error_to_string err)]
            end
       else [])
  ∧ Forall (λ c, is_daily_call c = true) (calls_since st st')
  ∧ feature_reports (calls_since st st') = if sharing st then [report] else [].
Proof.
  cbn zeta. unfold exec. destruct (sharing st) eqn:Hs.
  - rewrite (daily_enabled version w st Hs). cbn [snd reportStartTimestampMs serverConfig].
    split; [reflexivity|]. split; [reflexivity|].
    erewrite calls_since_app by reflexivity.
    unfold calls_of_daily, feature_failure.
    assert (Henabled : match accessKeyDataLimit (serverConfig st) with
                       | Some _ => true
                       | None => false
                       end
                       = bool_decide (accessKeyDataLimit (serverConfig st) ≠ None)).
    { destruct (accessKeyDataLimit (serverConfig st)); reflexivity. }
    rewrite Henabled. split; [reflexivity|].
    destruct (collectFeatureMetrics w) as [err|[]]; cbn;
      (split; [repeat constructor | reflexivity]).
  - rewrite (daily_disabled version w st Hs). cbn.
    split; [reflexivity|]. split; [reflexivity|].
    unfold calls_since. rewrite drop_all.
    split; [reflexivity|]. split; [constructor | reflexivity].
Qed.

(** X14: the user reports of an hourly report follow the order of the
    usage snapshot: they are the reports of some of its entries, in the
    same order, entries for the same key staying separate. *)
Theorem userReports_keep_snapshot_order
    (toMetricsId : jsstring → option jsstring) (data : ServerConfigJson)
    (start reportEnd : Z) (usage : list KeyUsage) :
  userReports (build_report toMetricsId data start reportEnd usage)
  `sublist_of` List.map (user_report toMetricsId) usage.
Proof.
  cbn. rewrite build_userReports_filter. apply sublist_map_filter.
Qed.

(** X15: a failed usage fetch is logged and changes nothing else: no
    report is built, nothing is delivered, the usage source is not
    reset and the cursor stays; the report of the next tick whose fetch
    succeeds therefore starts where the failed tick would have started. *)
Theorem failed_fetch_keeps_window
    (toMetricsId : jsstring → option jsstring) (st : State) (w1 w2 : World)
    (err : error) (usage : list KeyUsage) :
  sharing st = true → getUsage w1 = inl err → getUsage w2 = inr usage →
  let st1 := exec (hourly_callback toMetricsId) w1 st in
  let st2 := exec (hourly_callback toMetricsId) w2 st1 in
  calls_since st st1
  = [GetUsage;
     ConsoleError (lit "Failed to report server usage metrics: "
                     ++ error_to_string err)]
  ∧ reportStartTimestampMs st1 = reportStartTimestampMs st
  ∧ serverConfig st1 = serverConfig st
  ∧ built_reports (calls_since st1 st2)
    = [build_report toMetricsId (serverConfig st)
         (reportStartTimestampMs st) (now w2) usage].
Proof.
  intros Hs Hfail Hfetch. cbn zeta. unfold exec.
  rewrite (hourly_fetch_failed toMetricsId w1 st err Hs Hfail).
  cbn [snd reportStartTimestampMs serverConfig].
  split; [apply calls_since_app; reflexivity|].
  split; [reflexivity|]. split; [reflexivity|].
  match goal with
  | |- context [hourly_callback toMetricsId w2 ?s] =>
      rewrite (hourly_fetched toMetricsId w2 s usage Hs Hfetch)
  end.
  erewrite calls_since_app by reflexivity.
  apply built_reports_after_fetch.
Qed.

Lemma failed_fetch_keeps_window_witness :
  let st := construct 0 sharing_config in
  let w1 := {| now := 3600000; getUsage := inl (Error (lit "timeout"));
               collectServerUsageMetrics := inr tt;
               collectFeatureMetrics := inr tt |} in
  let w2 := world 7200000 [us_entry] (inr tt) in
  built_reports
    (calls_since (exec (hourly_callback Some) w1 st)
       (exec (hourly_callback Some) w2 (exec (hourly_callback Some) w1 st)))
  = [build_report Some sharing_config 0 7200000 [us_entry]].
Proof.
  intros st w1 w2.
  apply (failed_fetch_keeps_window Some st w1 w2 (Error (lit "timeout")) [us_entry]
           eq_refl eq_refl eq_refl).
Defined.

(** ** The transport, for every body and every service URL *)

Lemma length_utf8_code_point cp :
  length (Json.utf8_code_point cp)
  = if (cp <? 128)%N then 1%nat
    else if (cp <? 2048)%N then 2%nat
    else if (cp <? 65536)%N then 3%nat else 4%nat.
Proof.
  unfold Json.utf8_code_point.
  destruct (cp <? 128)%N; [reflexivity|].
  destruct (cp <? 2048)%N; [reflexivity|].
  destruct (cp <? 65536)%N; reflexivity.
Qed.

Lemma surrogate_not_ascii c :
  Json.is_high_surrogate c = true ∨ Json.is_low_surrogate c = true →
  (c <? 128)%N = false.
Proof.
  unfold Json.is_high_surrogate, Json.is_low_surrogate.
  intros [H|H]; apply andb_true_iff in H as [H _]; apply N.leb_le in H;
    apply N.ltb_ge; lia.
Qed.

(** A string has at most as many code units as UTF-8 bytes, and as many
    only when it is ASCII. *)
Lemma length_utf8_encode n : ∀ s,
  (length s ≤ n)%nat →
  (length s ≤ length (Json.utf8_encode s))%nat
  ∧ (length (Json.utf8_encode s) = length s → Forall (λ c, (c < 128)%N) s).
Proof.
  induction n as [|n IH]; intros s Hn.
  - destruct s; [|cbn in Hn; lia]. split; [reflexivity | constructor].
  - destruct s as [|c rest]; [split; [reflexivity | constructor]|].
    cbn in Hn. cbn [Json.utf8_encode].
    destruct (IH rest ltac:(lia)) as [Hrest Hrest_eq].
    destruct (Json.is_high_surrogate c) eqn:Hhigh.
    + destruct rest as [|d rest'].
      * cbn. split; [lia | intros H; discriminate H].
      * destruct (Json.is_low_surrogate d) eqn:Hlow.
        -- cbn in Hn. destruct (IH rest' ltac:(lia)) as [Hrest' _].
           rewrite length_app, length_utf8_code_point.
           assert (Hbig : (65536 + (c - 55296) * 1024 + (d - 56320) <? 128)%N = false)
             by (apply N.ltb_ge; lia).
           assert (Hbig2 : (65536 + (c - 55296) * 1024 + (d - 56320) <? 2048)%N = false)
             by (apply N.ltb_ge; lia).
           assert (Hbig3 : (65536 + (c - 55296) * 1024 + (d - 56320) <? 65536)%N = false)
             by (apply N.ltb_ge; lia).
           rewrite Hbig, Hbig2, Hbig3. cbn [length]. split; lia.
        -- rewrite length_app. cbn [length Json.utf8_code_point N.ltb N.compare]. cbn.
           cbn in Hrest. split; lia.
    + destruct (Json.is_low_surrogate c) eqn:Hlow.
      * rewrite length_app. cbn. split; lia.
      * rewrite length_app, length_utf8_code_point.
        destruct (N.ltb_spec c 128) as [Hascii|Hwide].
        -- cbn. split; [lia|]. intros Heq. constructor; [exact Hascii|].
           apply Hrest_eq. lia.
        -- destruct (c <? 2048)%N; [|destruct (c <? 65536)%N]; cbn; split; lia.
Qed.

(** X16: the [Content-Length] header never exceeds the number of bytes
    written, and the two are equal exactly when the body is ASCII. *)
Theorem content_length_at_most_bytes
    (url : Url.t) (urlPath reportJson : jsstring) :
  let contentLength :=
    Rest.contentLength (Rest.headers (Rest.request_options url urlPath reportJson)) in
  contentLength ≤ Json.byteLength reportJson
  ∧ (contentLength = Json.byteLength reportJson
     ↔ Forall (λ c, (c < 128)%N) reportJson).
Proof.
  cbn. unfold Json.byteLength.
  destruct (length_utf8_encode (length reportJson) reportJson (le_n _))
    as [Hle Heq].
  split; [lia|]. split.
  - intros H. apply Heq. lia.
  - intros H. rewrite (utf8_encode_ascii _ H). reflexivity.
Qed.

(** X17: whatever the service URL, a request that [postMetrics] makes
    is made on the [https] module. *)
Theorem post_never_uses_http_module
    (parse_host : jsstring → jsstring → option jsstring)
    (serviceUrl urlPath reportJson : jsstring) (outcome : Rest.Outcome)
    (calls : list Rest.NetCall) (promise : Rest.Promise)
    (requestModule : Rest.RequestModule) (options : Rest.Options) :
  Rest.postMetrics parse_host serviceUrl urlPath reportJson outcome
  = inr (calls, promise) →
  Rest.Request requestModule options ∈ calls →
  requestModule = Rest.https.
Proof.
  unfold Rest.postMetrics.
  destruct (Url.new parse_host serviceUrl) as [url|] eqn:Hurl; [|discriminate].
  intros [= <- _] Hin.
  rewrite (select_module_of_parsed_url _ _ _ Hurl) in Hin.
  repeat (apply elem_of_cons in Hin as [Hin|Hin];
          [first [discriminate Hin | injection Hin as -> _; reflexivity]|]).
  inversion Hin.
Qed.

Lemma post_never_uses_http_module_witness :
  ∃ requestModule options,
    Rest.Request requestModule options ∈ sample_post_calls
    ∧ requestModule = Rest.https.
Proof.
  exists Rest.https,
    (Rest.request_options (Url.mk (lit "https:") (lit "metrics.example.com"))
       (lit "/connections") (lit "{}")).
  assert (sent : Rest.Request Rest.https
                   (Rest.request_options
                      (Url.mk (lit "https:") (lit "metrics.example.com"))
                      (lit "/connections") (lit "{}"))
                 ∈ sample_post_calls)
    by (unfold sample_post_calls; right; left).
  split; [exact sent|].
  assert (posted : Rest.postMetrics Url.plain_host https_service
                     (lit "/connections") (lit "{}") (Rest.Response 503)
                   = inr (sample_post_calls, Rest.Rejected status_503))
    by (vm_compute; reflexivity).
  apply (post_never_uses_http_module _ _ _ _ _ _ _ Rest.https
           (Rest.request_options
              (Url.mk (lit "https:") (lit "metrics.example.com"))
              (lit "/connections") (lit "{}")) posted sent).
Defined.

Lemma scheme_state_colon rest : ∀ buffer found,
  Url.scheme_state buffer rest = Some found → 58%N ∈ rest.
Proof.
  induction rest as [|c rest IH]; intros buffer found; cbn; [discriminate|].
  destruct (Url.is_scheme_unit c).
  - intros H. right. exact (IH _ _ H).
  - destruct (N.eqb_spec c 58) as [->|_]; [|discriminate]. intros _. left.
Qed.

Lemma strip_leading_sub s c : c ∈ Url.strip_leading s → c ∈ s.
Proof.
  induction s as [|d s IH]; cbn; [auto|].
  destruct (Url.is_c0_or_space d); [|auto]. intros H. right. exact (IH H).
Qed.

Lemma preprocess_sub input c : c ∈ Url.preprocess input → c ∈ input.
Proof.
  unfold Url.preprocess. rewrite list_elem_of_In, filter_In.
  intros [H _]. apply in_rev in H. rewrite <- list_elem_of_In in H.
  apply strip_leading_sub in H.
  rewrite list_elem_of_In in H. apply in_rev in H. rewrite <- list_elem_of_In in H.
  apply strip_leading_sub, H.
Qed.

(** X18: a service URL without a colon has no scheme: [postMetrics]
    throws before anything is logged or sent, whatever the report. *)
Theorem url_without_colon_is_refused
    (parse_host : jsstring → jsstring → option jsstring)
    (serviceUrl urlPath reportJson : jsstring) (outcome : Rest.Outcome) :
  58%N ∉ serviceUrl →
  ∃ e, Rest.postMetrics parse_host serviceUrl urlPath reportJson outcome = inl e.
Proof.
  intros Hcolon. unfold Rest.postMetrics, Url.new.
  destruct (Url.scheme_start_state (Url.preprocess serviceUrl))
    as [[scheme remaining]|] eqn:Hscheme; [|eexists; reflexivity].
  exfalso. apply Hcolon. apply preprocess_sub.
  unfold Url.scheme_start_state in Hscheme.
  destruct (Url.preprocess serviceUrl) as [|c rest]; [discriminate|].
  destruct (Url.is_ascii_alpha c); [|discriminate].
  right. exact (scheme_state_colon _ _ _ Hscheme).
Qed.

Lemma url_without_colon_is_refused_witness :
  ∃ e, Rest.postMetrics Url.plain_host (lit "metrics.example.com")
         (lit "/connections") (lit "{}") (Rest.Response 200) = inl e.
Proof.
  apply (url_without_colon_is_refused Url.plain_host (lit "metrics.example.com")).
  vm_compute. intros H.
  repeat (apply elem_of_cons in H as [H|H]; [discriminate H|]). inversion H.
Defined.

(** X19: with the REST client as collector, a response whose status
    code is outside [200, 300) to the delivery of an hourly report ends
    the tick with one [console.error] that names the status code; the
    usage source is not reset and the cursor has moved to this tick's
    clock reading. *)
Theorem rejected_status_reaches_the_log
    (parse_host : jsstring → jsstring → option jsstring) (serviceUrl : jsstring)
    (toMetricsId : jsstring → option jsstring) (st : State) (w : World)
    (usage : list KeyUsage) (statusCode : Z) :
  sharing st = true → getUsage w = inr usage →
  build_userReports toMetricsId usage ≠ [] →
  Url.new parse_host serviceUrl ≠ None →
  ¬ (200 ≤ statusCode < 300) →
  let report := build_report toMetricsId (serverConfig st)
                  (reportStartTimestampMs st) (now w) usage in
  awaited (Rest.collectServerUsageMetrics parse_host serviceUrl report
             (Rest.Response statusCode))
  = Some (collectServerUsageMetrics w) →
  calls_since st (exec (hourly_callback toMetricsId) w st)
  = [GetUsage; ClockNow; ReportBuilt report; CollectServerUsageMetrics report;
     ConsoleError
       (lit "Failed to report server usage metrics: "
          ++ lit "Error: "
          ++ lit "metrics server request failed with status code "
          ++ of_number statusCode)]
  ∧ reportStartTimestampMs (exec (hourly_callback toMetricsId) w st) = now w.
Proof.
  intros Hs Hfetch Hreports Hurl Hstatus report Hawait.
  unfold Rest.collectServerUsageMetrics, Rest.postMetrics in Hawait.
  destruct (Url.new parse_host serviceUrl) as [url|]; [|congruence].
  cbn in Hawait. rewrite in_range_spec in Hawait.
  rewrite bool_decide_eq_false_2 in Hawait by exact Hstatus.
  cbn in Hawait. injection Hawait as Hanswer.
  split.
  - rewrite (calls_of_hourly_fetched toMetricsId w st usage Hs Hfetch).
    fold report. unfold calls_after_fetch.
    destruct (userReports report) as [|u us] eqn:Hu; [contradiction|].
    rewrite <- Hanswer. reflexivity.
  - unfold exec. rewrite (hourly_fetched toMetricsId w st usage Hs Hfetch).
    reflexivity.
Qed.

Lemma rejected_status_reaches_the_log_witness :
  let st := construct 0 sharing_config in
  let w := world MS_PER_HOUR [us_entry] (inl status_503) in
  reportStartTimestampMs (exec (hourly_callback Some) w st) = now w.
Proof.
  intros st w.
  assert (parsed : Url.new Url.plain_host https_service ≠ None)
    by (rewrite new_https_service; discriminate).
  assert (answered :
            awaited (Rest.collectServerUsageMetrics Url.plain_host https_service
                       (build_report Some (serverConfig st)
                          (reportStartTimestampMs st) (now w) [us_entry])
                       (Rest.Response 503))
            = Some (collectServerUsageMetrics w)).
  { unfold Rest.collectServerUsageMetrics, Rest.postMetrics.
    rewrite new_https_service. reflexivity. }
  apply (rejected_status_reaches_the_log Url.plain_host https_service Some st w
           [us_entry] 503 eq_refl eq_refl).
  - vm_compute. discriminate.
  - exact parsed.
  - lia.
  - exact answered.
Defined.

Lemma sanctioned_location_is_not_reported_witness :
  user_report Some
    (usage_of_sample (λ _, 1000)
       (Prometheus.mkSample {[ lit "location" := lit "US, KP " ]} (lit "1000")))
  ∉ build_userReports Some
      (List.map (usage_of_sample (λ _, 1000))
         [Prometheus.mkSample {[ lit "location" := lit "US, KP " ]} (lit "1000")]).
Proof.
  apply (sanctioned_location_is_not_reported (λ _, 1000) Some
           [Prometheus.mkSample {[ lit "location" := lit "US, KP " ]} (lit "1000")]
           (Prometheus.mkSample {[ lit "location" := lit "US, KP " ]} (lit "1000"))
           (lit "US, KP ")).
  - vm_compute. reflexivity.
  - apply Exists_cons_tl, Exists_cons_hd. apply is_sanctioned_spec.
    vm_compute. reflexivity.
Defined.

(** ** The opt-in gate, with callbacks in flight *)

Section Gate.

Variable toMetricsId : jsstring → option jsstring.
Variable version : jsstring.

Local Abbreviation act' := (act toMetricsId version).
Local Abbreviation perform' := (perform toMetricsId version).

Lemma perform_snoc sys actions a :
  perform' sys (actions ++ [a]) = act' (perform' sys actions) a.
Proof. unfold perform. rewrite fold_left_app. reflexivity. Qed.

Lemma hourly_fires_off w st :
  sharing st = false → hourly_fires w st = (inr None, st).
Proof.
  intros H. unfold hourly_fires, mbind, M_bind.
  destruct (truthy_isSharingEnabled w st) as [-> ->]. rewrite H. reflexivity.
Qed.

Lemma daily_fires_off w st :
  sharing st = false → daily_fires version w st = (inr None, st).
Proof.
  intros H. unfold daily_fires, mbind, M_bind.
  destruct (truthy_isSharingEnabled w st) as [-> ->]. rewrite H. reflexivity.
Qed.

(** With sharing off, a timer that fires changes nothing. *)
Lemma tick_fires_off sys tick :
  sharing (publisher sys) = false → is_tick tick = true →
  act' sys (Happens tick) = sys.
Proof.
  intros Hoff Htick. destruct sys as [st waiting]. cbn in Hoff.
  destruct tick as [| |w|w]; try discriminate Htick; cbn [act publisher inflight];
    unfold advance.
  - rewrite (hourly_fires_off w st Hoff). reflexivity.
  - rewrite (daily_fires_off w st Hoff). reflexivity.
Qed.

(** A resumed callback makes no call of a first segment, delivers at
    most one usage report, and only when it waited for the usage; it
    leaves the configuration alone and never waits for the usage again. *)
Lemma resume_effect k w st :
  ∃ next st' extra,
    resume toMetricsId k w st = (inr next, st')
    ∧ trace st' = trace st ++ extra
    ∧ serverConfig st' = serverConfig st
    ∧ Forall (λ c, is_first_segment_call c = false) extra
    ∧ (length (delivered_reports extra) ≤ awaiting_usage [k])%nat
    ∧ next ≠ Some AwaitingUsage.
Proof.
  destruct k as [|delivering|]; cbn [resume].
  - unfold usage_settles, settled, mbind, M_bind.
    destruct (getUsage w) as [err|usage].
    + eexists _, _, _. split; [reflexivity|]. cbn.
      split_and!; first [reflexivity | discriminate | by repeat constructor].
    + unfold report_begins, mbind, M_bind. cbn.
      destruct (build_userReports toMetricsId usage) as [|u us]; cbn.
      * eexists _, _, _. split; [reflexivity|]. cbn. rewrite <- !app_assoc.
        split_and!; first [reflexivity | discriminate | by repeat constructor].
      * eexists _, _, _. split; [reflexivity|]. cbn. rewrite <- !app_assoc.
        split_and!; first [reflexivity | discriminate | by repeat constructor].
  - unfold report_settles, settled, mbind, M_bind.
    destruct delivering, (collectServerUsageMetrics w) as [err|[]]; cbn.
    all: eexists _, _, _; (split; [reflexivity|]); cbn.
    all: split_and!; first [reflexivity | discriminate | lia | by repeat constructor].
  - unfold features_settle, settled, mbind, M_bind.
    destruct (collectFeatureMetrics w) as [err|[]]; cbn.
    + eexists _, _, _. split; [reflexivity|]. cbn.
      split_and!; first [reflexivity | discriminate | lia | by repeat constructor].
    + exists None, st, []. rewrite app_nil_r.
      split_and!; first [reflexivity | discriminate | lia | by repeat constructor].
Qed.

Lemma awaiting_usage_app waiting waiting' :
  awaiting_usage (waiting ++ waiting')
  = (awaiting_usage waiting + awaiting_usage waiting')%nat.
Proof.
  induction waiting as [|k waiting IH]; [reflexivity|].
  destruct k; cbn; rewrite IH; reflexivity.
Qed.

Lemma awaiting_usage_delete waiting : ∀ i k,
  waiting !! i = Some k →
  awaiting_usage waiting
  = (awaiting_usage (delete i waiting) + awaiting_usage [k])%nat.
Proof.
  induction waiting as [|k' waiting IH]; intros i k Hi; [discriminate Hi|].
  destruct i as [|i]; cbn in Hi.
  - injection Hi as ->. cbn [delete list_delete].
    change (k :: waiting) with ([k] ++ waiting).
    rewrite awaiting_usage_app. lia.
  - cbn [delete list_delete].
    change (k' :: waiting) with ([k'] ++ waiting).
    change (k' :: delete i waiting) with ([k'] ++ delete i waiting).
    rewrite !awaiting_usage_app, (IH i k Hi). lia.
Qed.

(** While sharing is off, whatever happens other than [startSharing()]
    keeps it off; no first-segment call is made, and each usage report
    delivered uses up one callback that waited for the usage. *)
Lemma act_off sys a :
  sharing (publisher sys) = false → a ≠ Happens StartSharing →
  sharing (publisher (act' sys a)) = false
  ∧ ∃ extra,
      trace (publisher (act' sys a)) = trace (publisher sys) ++ extra
      ∧ Forall (λ c, is_first_segment_call c = false) extra
      ∧ (length (delivered_reports extra) + awaiting_usage (inflight (act' sys a))
         ≤ awaiting_usage (inflight sys))%nat.
Proof.
  intros Hoff Ha. destruct a as [ev|i w].
  - destruct ev as [| |w|w].
    + congruence.
    + cbn. split; [reflexivity|]. eexists. split; [reflexivity|].
      split; [by repeat constructor | cbn; lia].
    + rewrite (tick_fires_off sys (HourlyTick w) Hoff eq_refl).
      split; [exact Hoff|]. exists []. rewrite app_nil_r.
      split; [reflexivity|]. split; [constructor | cbn; lia].
    + rewrite (tick_fires_off sys (DailyTick w) Hoff eq_refl).
      split; [exact Hoff|]. exists []. rewrite app_nil_r.
      split; [reflexivity|]. split; [constructor | cbn; lia].
  - cbn [act]. destruct (inflight sys !! i) as [k|] eqn:Hi.
    + destruct (resume_effect k w (publisher sys))
        as (next & st' & extra & Hresume & Htrace & Hconfig & Hfirst & Hdelivered & Hnext).
      unfold advance. rewrite Hresume.
      rewrite (awaiting_usage_delete _ _ _ Hi).
      destruct next as [k'|]; cbn [publisher inflight].
      * split; [unfold sharing; rewrite Hconfig; exact Hoff|].
        exists extra. split; [exact Htrace|]. split; [exact Hfirst|].
        rewrite awaiting_usage_app.
        assert (awaiting_usage [k'] = 0%nat) by (destruct k'; [congruence|reflexivity..]).
        lia.
      * split; [unfold sharing; rewrite Hconfig; exact Hoff|].
        exists extra. split; [exact Htrace|]. split; [exact Hfirst|]. lia.
    + split; [exact Hoff|]. exists []. rewrite app_nil_r.
      split; [reflexivity|]. split; [constructor | cbn; lia].
Qed.

Lemma perform_off sys actions :
  sharing (publisher sys) = false → Happens StartSharing ∉ actions →
  sharing (publisher (perform' sys actions)) = false
  ∧ ∃ extra,
      trace (publisher (perform' sys actions)) = trace (publisher sys) ++ extra
      ∧ Forall (λ c, is_first_segment_call c = false) extra
      ∧ (length (delivered_reports extra)
         + awaiting_usage (inflight (perform' sys actions))
         ≤ awaiting_usage (inflight sys))%nat.
Proof.
  intros Hoff. induction actions as [|a actions IH] using rev_ind; intros Hstart.
  - split; [exact Hoff|]. exists []. cbn. rewrite app_nil_r.
    split; [reflexivity|]. split; [constructor | lia].
  - rewrite perform_snoc.
    destruct IH as (Hoff' & extra & Htrace & Hfirst & Hcount); [set_solver|].
    destruct (act_off (perform' sys actions) a Hoff')
      as (Hoff'' & extra' & Htrace' & Hfirst' & Hcount'); [set_solver|].
    split; [exact Hoff''|].
    exists (extra ++ extra'). rewrite Htrace', Htrace, app_assoc.
    split; [reflexivity|]. split; [apply Forall_app; split; assumption|].
    rewrite delivered_reports_app, length_app. lia.
Qed.

Lemma no_delivery_no_fetch calls :
  Forall (λ c, is_first_segment_call c = false) calls →
  delivered_reports calls = [] →
  Forall (λ c, is_fetch_or_delivery c = false) calls.
Proof.
  induction 1 as [|c calls Hc _ IH]; [constructor|].
  destruct c; cbn in *; try discriminate; intros Hnil;
    constructor; auto.
Qed.

End Gate.

(** A callback that nothing interrupts does what the callback run in one
    piece does: the segments are the callback cut at its [await]s. *)
Lemma uninterrupted_hourly
    (toMetricsId : jsstring → option jsstring) (version : jsstring)
    (w : World) (st : State) :
  perform toMetricsId version (idle st)
    [Happens (HourlyTick w); Resumes 0 w; Resumes 0 w]
  = idle (exec (hourly_callback toMetricsId) w st).
Proof.
  unfold exec, idle. cbn [perform fold_left act publisher inflight]. unfold advance.
  destruct (sharing st) eqn:Hs.
  - unfold hourly_fires, mbind, M_bind.
    destruct (truthy_isSharingEnabled w st) as [-> ->]. rewrite Hs.
    cbn [negb call mret M_ret publisher inflight app lookup list_lookup resume
         delete list_delete].
    destruct (getUsage w) as [err|usage] eqn:Hfetch.
    + rewrite (hourly_fetch_failed toMetricsId w st err Hs Hfetch).
      unfold usage_settles, settled, mbind, M_bind. rewrite Hfetch. cbn.
      unfold usage_failure, log. cbn. rewrite <- app_assoc. reflexivity.
    + rewrite (hourly_fetched toMetricsId w st usage Hs Hfetch).
      unfold usage_settles, settled, report_begins, mbind, M_bind.
      rewrite Hfetch. cbn. unfold calls_after_fetch. cbn.
      destruct (build_userReports toMetricsId usage) as [|u us]; cbn.
      * unfold report_settles, settled, mbind, M_bind. cbn.
        destruct (collectServerUsageMetrics w) as [err|[]]; cbn;
          unfold log; cbn; rewrite <- !app_assoc; reflexivity.
      * unfold report_settles, settled, mbind, M_bind. cbn.
        destruct (collectServerUsageMetrics w) as [err|[]]; cbn;
          unfold usage_failure, log; cbn; rewrite <- !app_assoc; reflexivity.
  - rewrite (hourly_fires_off w st Hs), (hourly_disabled toMetricsId w st Hs).
    reflexivity.
Qed.

Lemma uninterrupted_daily
    (toMetricsId : jsstring → option jsstring) (version : jsstring)
    (w : World) (st : State) :
  perform toMetricsId version (idle st) [Happens (DailyTick w); Resumes 0 w]
  = idle (exec (daily_callback version) w st).
Proof.
  unfold exec, idle. cbn [perform fold_left act publisher inflight]. unfold advance.
  destruct (sharing st) eqn:Hs.
  - rewrite (daily_enabled version w st Hs).
    unfold daily_fires, mbind, M_bind.
    destruct (truthy_isSharingEnabled w st) as [-> ->]. rewrite Hs. cbn.
    unfold features_settle, settled, mbind, M_bind, calls_of_daily. cbn.
    destruct (collectFeatureMetrics w) as [err|[]]; cbn;
      unfold feature_failure, log; cbn; rewrite <- ?app_assoc; reflexivity.
  - rewrite (daily_fires_off version w st Hs), (daily_disabled version w st Hs).
    reflexivity.
Qed.

(** C5, as stated, fails: the claim says that after [stopSharing()], as
    long as [startSharing()] is not called, every tick is a no-op and
    no usage fetch and no delivery to the metrics collector occurs.  An
    hourly tick that passed the gate before [stopSharing()] and waits
    for its usage fetch is resumed afterwards and delivers its report. *)
Lemma tick_in_flight_delivers_after_stop :
  ¬ (∀ (toMetricsId : jsstring → option jsstring) (version : jsstring)
       (sys : System) (actions : list Action),
        Happens StartSharing ∉ actions →
        let stopped := act toMetricsId version sys (Happens StopSharing) in
        Forall (λ c, is_fetch_or_delivery c = false)
          (calls_since (publisher stopped)
             (publisher (perform toMetricsId version stopped actions)))
        ∧ ∀ before tick after,
            actions = before ++ Happens tick :: after → is_tick tick = true →
            perform toMetricsId version stopped (before ++ [Happens tick])
            = perform toMetricsId version stopped before).
Proof.
  intros claim.
  specialize (claim Some (lit "1.0.0") tick_in_flight fetch_answered).
  assert (Hstart : Happens StartSharing ∉ fetch_answered).
  { unfold fetch_answered. intros Hin.
    apply list_elem_of_singleton in Hin. discriminate Hin. }
  destruct (claim Hstart) as [quiet _]. clear claim.
  assert (Hcalls :
            calls_since
              (publisher (act Some (lit "1.0.0") tick_in_flight (Happens StopSharing)))
              (publisher
                 (perform Some (lit "1.0.0")
                    (act Some (lit "1.0.0") tick_in_flight (Happens StopSharing))
                    fetch_answered))
            = let report := build_report Some
                              (set_metricsEnabled (Bool false) sharing_config)
                              0 MS_PER_HOUR [us_entry] in
              [ClockNow; ReportBuilt report; CollectServerUsageMetrics report])
    by (vm_compute; reflexivity).
  rewrite Hcalls in quiet. cbn zeta in quiet.
  apply Forall_cons in quiet as [_ quiet].
  apply Forall_cons in quiet as [_ quiet].
  apply Forall_cons in quiet as [quiet _].
  discriminate quiet.
Qed.

(** C5, amended: after [stopSharing()], as long as [startSharing()] is
    not called, every hourly or daily tick that fires is a no-op: it
    leaves the publisher and the waiting callbacks exactly as they are,
    so no usage fetch is started and no feature report is delivered.  A
    callback that passed the gate earlier and waits for its usage fetch
    is not stopped: each may still deliver one usage report, and these
    are the only deliveries.  When no callback waits for its usage fetch
    at [stopSharing()], no usage fetch and no delivery occurs at all. *)
Theorem ticks_fired_after_stop_are_noops
    (toMetricsId : jsstring → option jsstring) (version : jsstring)
    (sys : System) (actions : list Action) :
  Happens StartSharing ∉ actions →
  let stopped := act toMetricsId version sys (Happens StopSharing) in
  let final := perform toMetricsId version stopped actions in
  let calls := calls_since (publisher stopped) (publisher final) in
  (∀ before tick after,
      actions = before ++ Happens tick :: after → is_tick tick = true →
      perform toMetricsId version stopped (before ++ [Happens tick])
      = perform toMetricsId version stopped before)
  ∧ Forall (λ c, is_first_segment_call c = false) calls
  ∧ (length (delivered_reports calls) ≤ awaiting_usage (inflight sys))%nat
  ∧ (awaiting_usage (inflight sys) = 0%nat →
     Forall (λ c, is_fetch_or_delivery c = false) calls).
Proof.
  intros Hstart stopped final calls.
  assert (Hoff : sharing (publisher stopped) = false) by reflexivity.
  destruct (perform_off toMetricsId version stopped actions Hoff Hstart)
    as (_ & extra & Htrace & Hfirst & Hcount).
  assert (Hcalls : calls = extra) by (apply calls_since_app, Htrace).
  split; [|rewrite Hcalls; split; [exact Hfirst|split]].
  - intros before tick after Heq Htick. rewrite perform_snoc.
    apply tick_fires_off; [|exact Htick].
    apply perform_off; [exact Hoff|].
    rewrite Heq in Hstart. set_solver.
  - change (inflight stopped) with (inflight sys) in Hcount. lia.
  - intros Hnone. apply no_delivery_no_fetch; [exact Hfirst|].
    change (inflight stopped) with (inflight sys) in Hcount.
    destruct (delivered_reports extra); [reflexivity | cbn in Hcount; lia].
Qed.

Lemma ticks_fired_after_stop_are_noops_witness :
  let stopped := act Some (lit "1.0.0") tick_in_flight (Happens StopSharing) in
  let tick := HourlyTick (world (2 * MS_PER_HOUR) [us_entry] (inr tt)) in
  let actions := fetch_answered ++ [Happens tick] in
  let final := perform Some (lit "1.0.0") stopped actions in
  let calls := calls_since (publisher stopped) (publisher final) in
  perform Some (lit "1.0.0") stopped (fetch_answered ++ [Happens tick])
  = perform Some (lit "1.0.0") stopped fetch_answered
  ∧ Forall (λ c, is_first_segment_call c = false) calls
  ∧ (length (delivered_reports calls) ≤ 1)%nat.
Proof.
  intros stopped tick actions final calls.
  assert (Hstart : Happens StartSharing ∉ actions).
  { unfold actions, fetch_answered. cbn. intros Hin.
    repeat (apply elem_of_cons in Hin as [Hin|Hin]; [discriminate Hin|]).
    inversion Hin. }
  destruct (ticks_fired_after_stop_are_noops Some (lit "1.0.0") tick_in_flight
              actions Hstart) as (noop & first & count & _).
  split; [|split].
  - exact (noop fetch_answered tick [] eq_refl eq_refl).
  - exact first.
  - exact count.
Defined.

(** ** Window contiguity, with callbacks in flight *)

Section WindowsInFlight.

Variable toMetricsId : jsstring → option jsstring.
Variable version : jsstring.

Local Abbreviation act' := (act toMetricsId version).
Local Abbreviation perform' := (perform toMetricsId version).

(** Whatever happens either builds no report and leaves the cursor
    alone, or builds one report that starts at the cursor and moves the
    cursor to the report's end. *)
Lemma act_window sys a :
  (built_reports (trace (publisher (act' sys a)))
   = built_reports (trace (publisher sys))
   ∧ reportStartTimestampMs (publisher (act' sys a))
     = reportStartTimestampMs (publisher sys))
  ∨ ∃ r, built_reports (trace (publisher (act' sys a)))
         = built_reports (trace (publisher sys)) ++ [r]
         ∧ startUtcMs r = reportStartTimestampMs (publisher sys)
         ∧ reportStartTimestampMs (publisher (act' sys a)) = endUtcMs r.
Proof.
  destruct sys as [st waiting]. destruct a as [ev|i w]; cbn [act publisher inflight].
  - destruct ev as [| |w|w]; cbn [publisher].
    + left. cbn. rewrite built_reports_app. cbn. rewrite app_nil_r. auto.
    + left. cbn. rewrite built_reports_app. cbn. rewrite app_nil_r. auto.
    + left. unfold advance, hourly_fires, mbind, M_bind.
      destruct (truthy_isSharingEnabled w st) as [-> ->].
      destruct (sharing st); cbn; [|auto].
      rewrite built_reports_app. cbn. rewrite app_nil_r. auto.
    + left. unfold advance, daily_fires, mbind, M_bind.
      destruct (truthy_isSharingEnabled w st) as [-> ->].
      destruct (sharing st); cbn; [|auto].
      rewrite !built_reports_app. cbn. rewrite !app_nil_r. auto.
  - destruct (waiting !! i) as [k|]; [|left; auto].
    unfold advance. destruct k as [|delivering|]; cbn [resume].
    + unfold usage_settles, settled, mbind, M_bind.
      destruct (getUsage w) as [err|usage]; cbn.
      * left. rewrite built_reports_app. cbn. rewrite app_nil_r. auto.
      * right. unfold report_begins, mbind, M_bind. cbn.
        exists (build_report toMetricsId (serverConfig st)
                  (reportStartTimestampMs st) (now w) usage).
        destruct (build_userReports toMetricsId usage) as [|u us]; cbn;
          rewrite !built_reports_app; cbn; rewrite ?app_nil_r; auto.
    + left. unfold report_settles, settled, mbind, M_bind.
      destruct delivering, (collectServerUsageMetrics w) as [err|[]]; cbn;
        rewrite built_reports_app; cbn; rewrite app_nil_r; auto.
    + left. unfold features_settle, settled, mbind, M_bind.
      destruct (collectFeatureMetrics w) as [err|[]]; cbn; [|auto].
      rewrite built_reports_app. cbn. rewrite app_nil_r. auto.
Qed.

(** A callback resumed with the usage builds its report from the cursor
    as it is then, and moves the cursor, before the delivery is
    answered. *)
Lemma resumed_with_usage_builds sys i w usage :
  inflight sys !! i = Some AwaitingUsage → getUsage w = inr usage →
  let report := build_report toMetricsId (serverConfig (publisher sys))
                  (reportStartTimestampMs (publisher sys)) (now w) usage in
  let next := act' sys (Resumes i w) in
  built_reports (calls_since (publisher sys) (publisher next)) = [report]
  ∧ reportStartTimestampMs (publisher next) = endUtcMs report.
Proof.
  intros Hi Hfetch. destruct sys as [st waiting]. cbn in Hi.
  cbn [act publisher inflight]. rewrite Hi. cbn [resume].
  unfold advance, usage_settles, settled, report_begins, mbind, M_bind.
  rewrite Hfetch. cbn.
  destruct (build_userReports toMetricsId usage) as [|u us] eqn:Hreports; cbn.
  - split; [|reflexivity].
    erewrite calls_since_app by (cbn; rewrite <- !app_assoc; reflexivity).
    reflexivity.
  - split; [|reflexivity].
    erewrite calls_since_app by (cbn; rewrite <- !app_assoc; reflexivity).
    reflexivity.
Qed.

(** The invariant of the window cursor holds in every interleaving of
    the callbacks' segments. *)
Lemma perform_chained clockNow config actions :
  let sys := perform' (idle (construct clockNow config)) actions in
  chained clockNow (built_reports (trace (publisher sys)))
    (reportStartTimestampMs (publisher sys)).
Proof.
  induction actions as [|a actions IH] using rev_ind; [reflexivity|].
  cbn zeta in *. unfold perform in *. rewrite fold_left_app. cbn [fold_left].
  destruct (act_window (fold_left act' actions (idle (construct clockNow config))) a)
    as [[-> ->]|(r & -> & Hstart & ->)]; [exact IH|].
  eapply chained_snoc; [exact IH | exact Hstart].
Qed.

(** So in every interleaving, of two reports built one after the other
    the second starts where the first ends. *)
Lemma contiguity_in_flight clockNow config actions l1 r1 r2 l2 :
  built_reports
    (trace (publisher (perform' (idle (construct clockNow config)) actions)))
  = l1 ++ r1 :: r2 :: l2 →
  startUtcMs r2 = endUtcMs r1.
Proof.
  intros Heq.
  pose proof (perform_chained clockNow config actions) as H.
  cbn zeta in H. rewrite Heq in H.
  exact (chained_adjacent _ _ _ _ _ _ H).
Qed.

End WindowsInFlight.

(** C3: at any point of any run of a publisher, an hourly tick that
    passes the gate and whose fetch succeeds builds one report, whose
    window runs from the cursor to the clock reading of the tick, and
    advances the cursor to that report's [endUtcMs], whatever the
    collector answers to the delivery (the report is delivered when it
    has user reports); hence, of two reports built one after the other
    the second starts where the first ends, and the window cursor is the
    end of the report built last.  The same holds of the reports built
    when other callbacks and method calls run while a callback waits at
    an [await]. *)
Theorem window_contiguity
    (toMetricsId : jsstring → option jsstring) (version : jsstring)
    (clockNow : Z) (config : ServerConfigJson) (events : list Event) :
  let final := run toMetricsId version (construct clockNow config) events in
  (∀ (w : World) (usage : list KeyUsage),
      sharing final = true → getUsage w = inr usage →
      let report := build_report toMetricsId (serverConfig final)
                      (reportStartTimestampMs final) (now w) usage in
      let next := step toMetricsId version final (HourlyTick w) in
      built_reports (calls_since final next) = [report]
      ∧ delivered_reports (calls_since final next)
        = match userReports report with
          | [] => []
          | _ :: _ => [report]
          end
      ∧ startUtcMs report = reportStartTimestampMs final
      ∧ endUtcMs report = now w
      ∧ reportStartTimestampMs next = endUtcMs report)
  ∧ (∀ l1 r1 r2 l2,
        built_reports (trace final) = l1 ++ r1 :: r2 :: l2 →
        startUtcMs r2 = endUtcMs r1)
  ∧ (∀ l r,
        built_reports (trace final) = l ++ [r] →
        reportStartTimestampMs final = endUtcMs r)
  ∧ (∀ actions l1 r1 r2 l2,
        built_reports
          (trace (publisher
                    (perform toMetricsId version
                       (idle (construct clockNow config)) actions)))
        = l1 ++ r1 :: r2 :: l2 →
        startUtcMs r2 = endUtcMs r1)
  ∧ (∀ actions i (w : World) (usage : list KeyUsage),
        let sys := perform toMetricsId version
                     (idle (construct clockNow config)) actions in
        inflight sys !! i = Some AwaitingUsage → getUsage w = inr usage →
        let report := build_report toMetricsId (serverConfig (publisher sys))
                        (reportStartTimestampMs (publisher sys)) (now w) usage in
        let next := act toMetricsId version sys (Resumes i w) in
        built_reports (calls_since (publisher sys) (publisher next)) = [report]
        ∧ reportStartTimestampMs (publisher next) = endUtcMs report).
Proof.
  intros final.
  pose proof (run_chained toMetricsId version clockNow config events) as H.
  cbn zeta in H. fold final in H. split; [|split; [|split; [|split]]].
  - intros w usage Hs Hfetch report next. subst next. cbn [step].
    rewrite (calls_of_hourly_fetched toMetricsId w final usage Hs Hfetch).
    fold report.
    split; [apply built_reports_after_fetch|].
    split; [|split; [reflexivity|split; [reflexivity|]]].
    + unfold calls_after_fetch.
      destruct (userReports report); [reflexivity|].
      destruct (collectServerUsageMetrics w); reflexivity.
    + unfold exec. rewrite (hourly_fetched toMetricsId w final usage Hs Hfetch).
      reflexivity.
  - intros l1 r1 r2 l2 Heq. rewrite Heq in H.
    exact (chained_adjacent _ _ _ _ _ _ H).
  - intros l r Heq. rewrite Heq in H.
    exact (chained_last _ _ _ _ H).
  - intros actions l1 r1 r2 l2.
    apply contiguity_in_flight.
  - intros actions i w usage sys Hi Hfetch.
    exact (resumed_with_usage_builds toMetricsId version sys i w usage Hi Hfetch).
Qed.

Lemma window_contiguity_witness :
  let final := run Some (lit "1.0.0") (construct 0 sharing_config) three_hours in
  let hour k := build_report Some sharing_config
                  (k * MS_PER_HOUR) ((k + 1) * MS_PER_HOUR) [us_entry] in
  let w := world (4 * MS_PER_HOUR) [us_entry] (inl status_503) in
  let next := step Some (lit "1.0.0") final (HourlyTick w) in
  built_reports (trace final) = [hour 0; hour 1; hour 2]
  ∧ startUtcMs (hour 1) = endUtcMs (hour 0)
  ∧ startUtcMs (hour 2) = endUtcMs (hour 1)
  ∧ reportStartTimestampMs final = endUtcMs (hour 2)
  ∧ built_reports (calls_since final next) = [hour 3]
  ∧ delivered_reports (calls_since final next) = [hour 3]
  ∧ reportStartTimestampMs next = endUtcMs (hour 3).
Proof.
  intros final hour w next.
  assert (built : built_reports (trace final) = [hour 0; hour 1; hour 2])
    by (vm_compute; reflexivity).
  destruct (window_contiguity Some (lit "1.0.0") 0 sharing_config three_hours)
    as (attempt & adjacent & last & _ & _).
  fold final in attempt, adjacent, last.
  destruct (attempt w [us_entry] eq_refl eq_refl)
    as (built' & delivered' & _ & _ & cursor').
  split; [exact built|]. split; [|split; [|split; [|split; [|split]]]].
  - exact (adjacent [] (hour 0) (hour 1) [hour 2] built).
  - exact (adjacent [hour 0] (hour 1) (hour 2) [] built).
  - exact (last [hour 0; hour 1] (hour 2) built).
  - exact built'.
  - exact delivered'.
  - exact cursor'.
Defined.

